(** * numpy/core/_type_aliases.py: the scalar-type naming tables

    A shallow embedding of the module-level script that builds
    [sctypeDict], [allTypes], [c_names_dict] and [sctypes] from the
    type registry [typeinfo] of [numpy.core.multiarray], followed by
    the properties of the tables it produces. *)

From stdpp Require Import gmap strings list fin_maps pretty sorting.
From Stdlib Require Import Sorted.

Local Open Scope list_scope.

(** ** Python values the script handles *)

(** A type handle: a class object, compared by identity. *)
Definition pytype : Type := N.

(** A value of the registry [typeinfo]: the script reads its attributes
    [kind] and [type]; two values are equal when their attributes are. *)
Record type_info : Type := TypeInfo { kind : string; type : pytype }.

Global Instance type_info_eq_dec : EqDecision type_info.
Proof. solve_decision. Defined.

(** What the script imports and does not define: the attributes of the
    module [ma], the builtin [issubclass] on the class hierarchy, and
    [dtype(x).itemsize]. *)
Record env : Type := Env {
  ma : string → option pytype;
  issubclass : pytype → pytype → bool;
  dtype_itemsize : pytype → N
}.

(** ** Exceptions *)

Inductive pyerr : Type :=
  | AttributeError (name : string)
  | KeyError (key : string).

Inductive result (A : Type) : Type :=
  | Ok (a : A)
  | Raise (e : pyerr).
Arguments Ok {A} a.
Arguments Raise {A} e.

Global Instance result_bind : MBind result := λ A B f r,
  match r with
  | Ok a => f a
  | Raise e => Raise e
  end.

(** A [for] loop whose body may raise. *)
Fixpoint for_each {A S} (l : list A) (body : A → S → result S) (s : S)
  : result S :=
  match l with
  | [] => Ok s
  | x :: l' => s' ← body x s; for_each l' body s'
  end.

(** [getattr(ma, name)] *)
Definition getattr (E : env) (name : string) : result pytype :=
  match ma E name with
  | Some t => Ok t
  | None => Raise (AttributeError name)
  end.

(** [d[k]] on a dict with string keys *)
Definition getitem {V} (d : gmap string V) (k : string) : result V :=
  match d !! k with
  | Some v => Ok v
  | None => Raise (KeyError k)
  end.

(** [x in d] for a dict whose keys are all strings: a registry value is
    not a string, and so is equal to no key. *)
Inductive pyobj : Type :=
  | PyStr (s : string)
  | PyInfo (v : type_info).

Definition dict_contains {V} (d : gmap string V) (x : pyobj) : bool :=
  match x with
  | PyStr s => bool_decide (is_Some (d !! s))
  | PyInfo _ => false
  end.

(** [s[n:]] *)
Fixpoint str_from (n : nat) (s : string) : string :=
  match n, s with
  | O, _ => s
  | S n', String _ s' => str_from n' s'
  | S _, EmptyString => EmptyString
  end.

(** [s.startswith(p)] *)
Definition startswith (s p : string) : bool := String.prefix p s.

(** ** Building [sctypeDict] and [allTypes] *)

Record tables : Type := Tables {
  sctypeDict : gmap string pytype;
  allTypes : gmap string pytype;
  c_names_dict : gmap string type_info
}.

Definition empty_tables : tables := Tables ∅ ∅ ∅.

(** The set literal is iterated in an order Python does not fix; the
    order only decides which missing attribute is reported first. *)
Definition _abstract_type_names : list string :=
  ["generic"; "integer"; "inexact"; "floating"; "number";
   "flexible"; "character"; "complexfloating"; "unsignedinteger";
   "signedinteger"].

Definition abstract_step (E : env) (_abstract_type_name : string)
  (st : tables) : result tables :=
  t ← getattr E _abstract_type_name;
  Ok (Tables (sctypeDict st)
             (<[_abstract_type_name := t]> (allTypes st))
             (c_names_dict st)).

Definition registry_step (kv : string * type_info) (st : tables) : tables :=
  let k := kv.1 in
  let v := kv.2 in
  if startswith k "NPY_" && negb (dict_contains (c_names_dict st) (PyInfo v))
  then Tables (sctypeDict st) (allTypes st)
              (<[str_from 4 k := v]> (c_names_dict st))
  else
    let concrete_type := type v in
    Tables (<[k := concrete_type]> (sctypeDict st))
           (<[k := concrete_type]> (allTypes st))
           (c_names_dict st).

Definition registry_loop (typeinfo : list (string * type_info))
  (st : tables) : tables :=
  foldl (λ st kv, registry_step kv st) st typeinfo.

Definition _aliases : list (string * string) :=
  [("double", "float64");
   ("cdouble", "complex128");
   ("single", "float32");
   ("csingle", "complex64");
   ("half", "float16")].

Definition alias_step (kv : string * string) (st : tables) : result tables :=
  let k := kv.1 in
  let v := kv.2 in
  t ← getitem (allTypes st) v;
  let sct := <[k := t]> (sctypeDict st) in
  t' ← getitem (allTypes st) v;
  Ok (Tables sct (<[k := t']> (allTypes st)) (c_names_dict st)).

Definition _extra_aliases : list (string * string) :=
  [("bool", "bool_");
   ("float", "float64");
   ("complex", "complex128");
   ("object", "object_");
   ("bytes", "bytes_");
   ("a", "bytes_");
   ("int", "int_");
   ("long", "int_");
   ("ulong", "uint");
   ("str", "str_");
   ("unicode", "str_")].

Definition extra_alias_step (kv : string * string) (st : tables)
  : result tables :=
  let k := kv.1 in
  let v := kv.2 in
  t ← getitem (allTypes st) v;
  Ok (Tables (<[k := t]> (sctypeDict st)) (allTypes st) (c_names_dict st)).

Definition extended_prec_name (E : env) (is_complex : bool)
  (longdouble_type : pytype) : string :=
  let bits := (dtype_itemsize E longdouble_type * 8)%N in
  let base_name := if is_complex then "complex" else "float" in
  base_name +:+ pretty bits.

Definition extended_step (E : env) (p : bool * string) (st : tables)
  : result tables :=
  let is_complex := p.1 in
  let full_name := p.2 in
  longdouble_type ← getitem (allTypes st) full_name;
  let name := extended_prec_name E is_complex longdouble_type in
  if dict_contains (allTypes st) (PyStr name)
  then Ok st
  else Ok (Tables (<[name := longdouble_type]> (sctypeDict st))
                  (<[name := longdouble_type]> (allTypes st))
                  (c_names_dict st)).

Definition extended_names : list (bool * string) :=
  [(false, "longdouble"); (true, "clongdouble")].

(** The five loops, named so that theorems can speak of the state
    between two of them. *)
Definition phase_abstract (E : env) : result tables :=
  for_each _abstract_type_names (abstract_step E) empty_tables.

Definition phase_registry (E : env) (typeinfo : list (string * type_info))
  : result tables :=
  st ← phase_abstract E; Ok (registry_loop typeinfo st).

Definition phase_aliases (E : env) (typeinfo : list (string * type_info))
  : result tables :=
  st ← phase_registry E typeinfo; for_each _aliases alias_step st.

Definition phase_extra_aliases (E : env)
  (typeinfo : list (string * type_info)) : result tables :=
  st ← phase_aliases E typeinfo; for_each _extra_aliases extra_alias_step st.

Definition build_tables (E : env) (typeinfo : list (string * type_info))
  : result tables :=
  st ← phase_extra_aliases E typeinfo;
  for_each extended_names (extended_step E) st.

(** ** Building [sctypes] *)

Definition sctypes_init : gmap string (list pytype) :=
  <["int" := []]> (<["uint" := []]> (<["float" := []]>
    (<["complex" := []]> (<["others" := []]> ∅)))).

Definition is_time_kind (v : type_info) : bool :=
  bool_decide (kind v ∈ ["M"; "m"]).

(** The list literal of the inner loop, evaluated anew for each type. *)
Definition group_table (E : env) : result (list (string * pytype)) :=
  si ← getattr E "signedinteger";
  ui ← getattr E "unsignedinteger";
  fl ← getattr E "floating";
  cf ← getattr E "complexfloating";
  ge ← getattr E "generic";
  Ok [("int", si); ("uint", ui); ("float", fl); ("complex", cf);
      ("others", ge)].

(** The inner loop with its [break]: the first group whose abstract type
    the concrete type derives from, or none. *)
Fixpoint first_group (E : env) (concrete_type : pytype)
  (groups : list (string * pytype)) : option string :=
  match groups with
  | [] => None
  | (type_group, abstract_type) :: groups' =>
      if issubclass E concrete_type abstract_type
      then Some type_group
      else first_group E concrete_type groups'
  end.

Definition classify_step (E : env) (v : type_info)
  (sct : gmap string (list pytype)) : result (gmap string (list pytype)) :=
  if is_time_kind v then Ok sct
  else
    let concrete_type := type v in
    groups ← group_table E;
    match first_group E concrete_type groups with
    | Some type_group =>
        l ← getitem sct type_group;
        Ok (<[type_group := l ++ [concrete_type]]> sct)
    | None => Ok sct
    end.

(** [list.sort(key=...)]: ascending by key and stable. *)
Fixpoint insert_by {A} (key : A → N) (x : A) (l : list A) : list A :=
  match l with
  | [] => [x]
  | y :: l' =>
      if (key x <=? key y)%N then x :: y :: l'
      else y :: insert_by key x l'
  end.

Definition sort_by {A} (key : A → N) (l : list A) : list A :=
  foldr (insert_by key) [] l.

(** [values] is the order in which [set(typeinfo.values())] is iterated. *)
Definition classify (E : env) (values : list type_info)
  : result (gmap string (list pytype)) :=
  for_each values (classify_step E) sctypes_init.

Definition build_sctypes (E : env) (values : list type_info)
  : result (gmap string (list pytype)) :=
  sct ← classify E values;
  Ok (fmap (M := gmap string) (sort_by (dtype_itemsize E)) sct).


(** The module, top to bottom. *)
Record module_state : Type := Module_state {
  names : tables;
  sctypes : gmap string (list pytype)
}.

Definition script (E : env) (typeinfo : list (string * type_info))
  (values : list type_info) : result module_state :=
  T ← build_tables E typeinfo;
  G ← build_sctypes E values;
  Ok (Module_state T G).

(** ** Vocabulary of the properties *)

(** What the loop writes into each of the two name tables. *)
Definition registry_types (typeinfo : list (string * type_info))
  (m : gmap string pytype) : gmap string pytype :=
  foldl (λ m kv, if startswith kv.1 "NPY_" then m
                 else <[kv.1 := type kv.2]> m) m typeinfo.

Definition registry_c_names (typeinfo : list (string * type_info))
  (m : gmap string type_info) : gmap string type_info :=
  foldl (λ m kv, if startswith kv.1 "NPY_" then <[str_from 4 kv.1 := kv.2]> m
                 else m) m typeinfo.

(** The order of a sorted list: by key, non-decreasing. *)
Definition key_le {A} (key : A → N) (x y : A) : Prop :=
  (key x ≤ key y)%N.

Definition group_names : list string :=
  ["int"; "uint"; "float"; "complex"; "others"].

(** The group a registry value is put in, if any. *)
Definition group_of (E : env) (groups : list (string * pytype))
  (v : type_info) : option string :=
  if is_time_kind v then None else first_group E (type v) groups.

(** The types put in group [g], in the order the values are visited. *)
Definition members (E : env) (groups : list (string * pytype)) (g : string)
  (values : list type_info) : list pytype :=
  type <$> filter (λ v, group_of E groups v = Some g) values.

(** A group list of the finished module; empty for a name that is no
    group. *)
Definition group (G : gmap string (list pytype)) (g : string) : list pytype :=
  default [] (G !! g).

(** The names the alias loops and the extended-precision loop look up in
    [allTypes], in the order of the lookups. *)
Definition required_names : list string :=
  _aliases.*2 ++ _extra_aliases.*2 ++ extended_names.*2.

(** ** A registry in the shape of numpy's, for concrete runs *)

Module Sample.

Definition generic : pytype := 1%N.
Definition number : pytype := 2%N.
Definition integer : pytype := 3%N.
Definition signedinteger : pytype := 4%N.
Definition unsignedinteger : pytype := 5%N.
Definition inexact : pytype := 6%N.
Definition floating : pytype := 7%N.
Definition complexfloating : pytype := 8%N.
Definition flexible : pytype := 9%N.
Definition character : pytype := 10%N.

Definition bool_ : pytype := 20%N.
Definition int8 : pytype := 21%N.
Definition int32 : pytype := 22%N.
Definition int_ : pytype := 23%N.
Definition uint8 : pytype := 24%N.
Definition uint : pytype := 25%N.
Definition float16 : pytype := 26%N.
Definition float32 : pytype := 27%N.
Definition float64 : pytype := 28%N.
Definition longdouble : pytype := 29%N.
Definition complex64 : pytype := 30%N.
Definition complex128 : pytype := 31%N.
Definition clongdouble : pytype := 32%N.
Definition object_ : pytype := 33%N.
Definition bytes_ : pytype := 34%N.
Definition str_ : pytype := 35%N.
Definition datetime64 : pytype := 36%N.
Definition timedelta64 : pytype := 37%N.

Definition module_attrs : list (string * pytype) :=
  [("generic", generic); ("number", number); ("integer", integer);
   ("signedinteger", signedinteger); ("unsignedinteger", unsignedinteger);
   ("inexact", inexact); ("floating", floating);
   ("complexfloating", complexfloating); ("flexible", flexible);
   ("character", character)].

(** Direct base classes; [issubclass] is the reflexive-transitive
    closure. *)
Definition bases (t : pytype) : option pytype :=
  if decide (t = number) then Some generic
  else if decide (t = integer) then Some number
  else if decide (t = signedinteger) then Some integer
  else if decide (t = unsignedinteger) then Some integer
  else if decide (t = inexact) then Some number
  else if decide (t = floating) then Some inexact
  else if decide (t = complexfloating) then Some inexact
  else if decide (t = flexible) then Some generic
  else if decide (t = character) then Some flexible
  else if decide (t ∈ [bool_; object_; datetime64]) then Some generic
  else if decide (t ∈ [int8; int32; int_; timedelta64])
    then Some signedinteger
  else if decide (t ∈ [uint8; uint]) then Some unsignedinteger
  else if decide (t ∈ [float16; float32; float64; longdouble])
    then Some floating
  else if decide (t ∈ [complex64; complex128; clongdouble])
    then Some complexfloating
  else if decide (t ∈ [bytes_; str_]) then Some character
  else None.

Fixpoint derives (fuel : nat) (t a : pytype) : bool :=
  bool_decide (t = a) ||
  match fuel with
  | O => false
  | S fuel' =>
      match bases t with
      | Some b => derives fuel' b a
      | None => false
      end
  end.

Definition widths (ld : N) (t : pytype) : N :=
  (if decide (t ∈ [bool_; int8; uint8]) then 1
   else if decide (t = float16) then 2
   else if decide (t ∈ [int32; float32]) then 4
   else if decide (t ∈ [int_; uint; float64; complex64; object_;
                        datetime64; timedelta64]) then 8
   else if decide (t = complex128) then 16
   else if decide (t = longdouble) then ld
   else if decide (t = clongdouble) then 2 * ld
   else 0)%N.

(** [ld] is the byte width of the platform's [long double]. *)
Definition E (ld : N) : env :=
  Env (λ name, list_to_map (M := gmap string pytype) module_attrs !! name)
      (derives 8) (widths ld).

Definition info (k : string) (t : pytype) : type_info := TypeInfo k t.

Definition typeinfo : list (string * type_info) :=
  [("bool_", info "b" bool_); ("NPY_BOOL", info "b" bool_);
   ("float64", info "f" float64); ("NPY_DOUBLE", info "f" float64);
   ("int8", info "i" int8); ("uint8", info "u" uint8);
   ("complex128", info "c" complex128);
   ("int32", info "i" int32); ("intc", info "i" int32);
   ("float16", info "f" float16); ("float32", info "f" float32);
   ("int_", info "i" int_); ("uint", info "u" uint);
   ("longdouble", info "f" longdouble);
   ("complex64", info "c" complex64);
   ("clongdouble", info "c" clongdouble);
   ("object_", info "O" object_); ("bytes_", info "S" bytes_);
   ("str_", info "U" str_);
   ("datetime64", info "M" datetime64);
   ("NPY_DATETIME", info "M" datetime64);
   ("timedelta64", info "m" timedelta64)].

(** The same registry with the C names of two types added. *)
Definition typeinfo_c_names : list (string * type_info) :=
  typeinfo ++ [("float", info "f" float32); ("long", info "i" int_)].

(** The same registry with an entry named like an abstract category. *)
Definition typeinfo_integer : list (string * type_info) :=
  typeinfo ++ [("integer", info "i" int_)].



(** The same registry with [timedelta64] entered a second time, as an
    integer. *)
Definition typeinfo_timedelta : list (string * type_info) :=
  typeinfo ++ [("timedelta", info "i" timedelta64)].

(** One order in which the set of registry values can be visited. *)
Definition values_of (typeinfo : list (string * type_info))
  : list type_info := remove_dups (typeinfo.*2).

Definition completed {A} (d : A) (r : result A) : A :=
  match r with
  | Ok a => a
  | Raise _ => d
  end.

Definition tables_of (E : env) (typeinfo : list (string * type_info))
  : tables := completed empty_tables (build_tables E typeinfo).

Definition module_of (E : env) (typeinfo : list (string * type_info))
  : module_state :=
  completed (Module_state empty_tables ∅)
            (script E typeinfo (values_of typeinfo)).

(** The module [ma] without its attribute [character]. *)
Definition E_without_character : env :=
  Env (λ name, if decide (name = "character") then None
               else ma (E 16) name)
      (derives 8) (widths 16).

(** A registry of five types only. *)
Definition typeinfo_five : list (string * type_info) :=
  [("float64", info "f" float64); ("float32", info "f" float32);
   ("int32", info "i" int32); ("uint8", info "u" uint8);
   ("complex128", info "c" complex128)].

(** The registry in another order. *)
Definition typeinfo_reversed : list (string * type_info) :=
  reverse typeinfo.

End Sample.

(** ** Exceptions and loops *)

Lemma bind_Ok {A B} (r : result A) (f : A → result B) (b : B) :
  r ≫= f = Ok b → ∃ a, r = Ok a ∧ f a = Ok b.
Proof. destruct r as [a|e]; simpl; [eauto | discriminate]. Qed.

Lemma getitem_Ok {V} (d : gmap string V) k v :
  getitem d k = Ok v ↔ d !! k = Some v.
Proof.
  unfold getitem. destruct (d !! k); split; intros H; by simplify_eq.
Qed.

Lemma getattr_Ok E name t : getattr E name = Ok t ↔ ma E name = Some t.
Proof.
  unfold getattr. destruct (ma E name); split; intros H; by simplify_eq.
Qed.

Ltac inv_bind H :=
  let a := fresh "a" in
  let Ha := fresh "H" a in
  apply bind_Ok in H as (a & Ha & H).

(** ** Strings *)

Lemma append_cons (a : Ascii.ascii) (p s : string) :
  String a p +:+ s = String a (p +:+ s).
Proof. reflexivity. Qed.

Lemma prefix_strip (p s : string) :
  String.prefix p s = true → s = p +:+ str_from (String.length p) s.
Proof.
  revert s. induction p as [|a p IH]; intros s; [done|].
  destruct s as [|b s]; cbn [String.prefix]; [discriminate|].
  destruct (Ascii.ascii_dec a b) as [->|]; [|discriminate].
  intros H. simpl. rewrite append_cons. f_equal. by apply IH.
Qed.

Lemma startswith_strip k :
  startswith k "NPY_" = true → k = "NPY_" +:+ str_from 4 k.
Proof. apply prefix_strip. Qed.

Lemma pretty_N_go_length (x : N) (s : string) :
  String.length s ≤ String.length (pretty_N_go x s).
Proof.
  revert s. induction (N.lt_wf_0 x) as [x _ IH]. intros s.
  destruct (decide (x = 0)%N) as [->|Hx].
  - by rewrite pretty_N_go_0.
  - rewrite pretty_N_go_step by lia.
    etrans; [|apply IH; apply N.div_lt; lia]. simpl. lia.
Qed.

Lemma pretty_N_nonempty (x : N) : pretty x ≠ "".
Proof.
  unfold pretty, pretty_N. case_decide as Hx; [done|].
  rewrite pretty_N_go_step by lia. intros Heq.
  pose proof (pretty_N_go_length (x `div` 10)%N
    (String (pretty_N_char (x `mod` 10)) "")) as Hlen.
  rewrite Heq in Hlen. simpl in Hlen. lia.
Qed.

Lemma append_nonempty_ne (p s : string) : s ≠ "" → p +:+ s ≠ p.
Proof.
  intros Hs. induction p as [|a p IH]; [done|].
  rewrite append_cons. intros [= Heq]. by apply IH.
Qed.

(** ** The loop over the abstract type names *)

Lemma abstract_loop_spec E (l : list string) st st' :
  for_each l (abstract_step E) st = Ok st' →
  sctypeDict st' = sctypeDict st ∧
  c_names_dict st' = c_names_dict st ∧
  ∀ k, allTypes st' !! k =
       if decide (k ∈ l) then ma E k else allTypes st !! k.
Proof.
  revert st. induction l as [|n l IH]; intros st H; simpl in H.
  - simplify_eq. split_and!; [done..|]. intros k.
    by rewrite decide_False by apply not_elem_of_nil.
  - inv_bind H. unfold abstract_step in Ha. inv_bind Ha.
    apply getattr_Ok in Ha0. simplify_eq.
    apply IH in H as (-> & -> & Hall). split_and!; [done..|].
    intros k. rewrite Hall. simpl.
    destruct (decide (k ∈ l)) as [Hin|Hin].
    + rewrite decide_True; [done | by right].
    + destruct (decide (k = n)) as [->|Hne].
      * rewrite decide_True by left. by rewrite lookup_insert_eq.
      * rewrite decide_False by (by intros [?|?]%elem_of_cons).
        by rewrite lookup_insert_ne.
Qed.

Lemma abstract_loop_defined E (l : list string) st st' :
  for_each l (abstract_step E) st = Ok st' →
  ∀ k, k ∈ l → is_Some (ma E k).
Proof.
  revert st. induction l as [|n l IH]; intros st H k Hk; simpl in H.
  - by apply not_elem_of_nil in Hk.
  - inv_bind H. unfold abstract_step in Ha. inv_bind Ha.
    apply getattr_Ok in Ha0.
    apply elem_of_cons in Hk as [->|Hk]; [eauto | by eapply IH].
Qed.

(** ** The loop over the registry *)


Lemma registry_loop_tables typeinfo st :
  registry_loop typeinfo st =
  Tables (registry_types typeinfo (sctypeDict st))
         (registry_types typeinfo (allTypes st))
         (registry_c_names typeinfo (c_names_dict st)).
Proof.
  revert st. induction typeinfo as [|[k v] l IH]; intros st.
  - by destruct st.
  - unfold registry_loop, registry_types, registry_c_names in *. simpl.
    rewrite IH. unfold registry_step. simpl. rewrite andb_true_r.
    by destruct (startswith k "NPY_").
Qed.

Lemma registry_types_snoc l kv m :
  registry_types (l ++ [kv]) m =
  if startswith kv.1 "NPY_" then registry_types l m
  else <[kv.1 := type kv.2]> (registry_types l m).
Proof. unfold registry_types. by rewrite foldl_snoc. Qed.

Lemma registry_c_names_snoc l kv m :
  registry_c_names (l ++ [kv]) m =
  if startswith kv.1 "NPY_"
  then <[str_from 4 kv.1 := kv.2]> (registry_c_names l m)
  else registry_c_names l m.
Proof. unfold registry_c_names. by rewrite foldl_snoc. Qed.

Lemma registry_types_public typeinfo m k v :
  NoDup typeinfo.*1 → (k, v) ∈ typeinfo → startswith k "NPY_" = false →
  registry_types typeinfo m !! k = Some (type v).
Proof.
  induction typeinfo as [|[k' v'] l IH] using rev_ind; intros Hnd Hin Hk.
  - by apply not_elem_of_nil in Hin.
  - rewrite fmap_app in Hnd. apply NoDup_app in Hnd as (Hnd & Hfresh & _).
    rewrite registry_types_snoc. simpl.
    apply elem_of_app in Hin as [Hin|Hin].
    + assert (k ≠ k') as Hne.
      { intros ->. eapply (Hfresh k').
        - apply list_elem_of_fmap. by exists (k', v).
        - simpl. left. }
      destruct (startswith k' "NPY_"); [by apply IH|].
      rewrite lookup_insert_ne by done. by apply IH.
    + apply list_elem_of_singleton in Hin. simplify_eq.
      rewrite Hk. by rewrite lookup_insert_eq.
Qed.

Lemma registry_types_other typeinfo m k :
  (∀ v, (k, v) ∈ typeinfo → startswith k "NPY_" = true) →
  registry_types typeinfo m !! k = m !! k.
Proof.
  induction typeinfo as [|[k' v'] l IH] using rev_ind; intros H; [done|].
  rewrite registry_types_snoc. simpl.
  destruct (startswith k' "NPY_") eqn:Hk'.
  - apply IH. intros v Hv. apply (H v). apply elem_of_app. by left.
  - rewrite lookup_insert_ne.
    + apply IH. intros v Hv. apply (H v). apply elem_of_app. by left.
    + intros ->. rewrite (H v') in Hk'; [done|].
      apply elem_of_app. right. left.
Qed.

Lemma registry_c_names_reserved typeinfo m k v :
  NoDup typeinfo.*1 → (k, v) ∈ typeinfo → startswith k "NPY_" = true →
  registry_c_names typeinfo m !! str_from 4 k = Some v.
Proof.
  induction typeinfo as [|[k' v'] l IH] using rev_ind; intros Hnd Hin Hk.
  - by apply not_elem_of_nil in Hin.
  - rewrite fmap_app in Hnd. apply NoDup_app in Hnd as (Hnd & Hfresh & _).
    rewrite registry_c_names_snoc. cbn [fst snd].
    apply elem_of_app in Hin as [Hin|Hin].
    + assert (k ≠ k') as Hne.
      { intros ->. eapply (Hfresh k').
        - apply list_elem_of_fmap. by exists (k', v).
        - simpl. left. }
      destruct (startswith k' "NPY_") eqn:Hk'; [|by apply IH].
      rewrite lookup_insert_ne; [by apply IH|].
      intros Heq. apply Hne.
      rewrite (startswith_strip k), (startswith_strip k') by done.
      by rewrite Heq.
    + apply list_elem_of_singleton in Hin. simplify_eq.
      rewrite Hk. by rewrite lookup_insert_eq.
Qed.

(** ** The two alias loops *)

Lemma alias_step_Ok k tgt st st' :
  alias_step (k, tgt) st = Ok st' →
  ∃ t, allTypes st !! tgt = Some t ∧
       st' = Tables (<[k := t]> (sctypeDict st)) (<[k := t]> (allTypes st))
                    (c_names_dict st).
Proof.
  unfold alias_step. cbn [fst snd]. intros H.
  inv_bind H. inv_bind H. apply getitem_Ok in Ha, Ha0. simplify_eq. eauto.
Qed.

Lemma alias_loop_other (al : list (string * string)) st st' :
  for_each al alias_step st = Ok st' →
  c_names_dict st' = c_names_dict st ∧
  ∀ k, k ∉ al.*1 →
    allTypes st' !! k = allTypes st !! k ∧
    sctypeDict st' !! k = sctypeDict st !! k.
Proof.
  revert st. induction al as [|[k0 t0] al IH]; intros st H; simpl in H.
  - by simplify_eq.
  - inv_bind H. apply alias_step_Ok in Ha as (t & Ht & ->).
    apply IH in H as [-> Hother]. split; [done|].
    intros k [Hne Hk]%not_elem_of_cons. simpl in Hne.
    destruct (Hother k Hk) as [-> ->]. simpl.
    by rewrite !lookup_insert_ne.
Qed.

Lemma alias_loop_written (al : list (string * string)) st st' :
  for_each al alias_step st = Ok st' →
  NoDup al.*1 → Forall (λ tgt, tgt ∉ al.*1) al.*2 →
  ∀ k tgt, (k, tgt) ∈ al →
    ∃ t, allTypes st !! tgt = Some t ∧
         allTypes st' !! k = Some t ∧ sctypeDict st' !! k = Some t.
Proof.
  revert st. induction al as [|[k0 t0] al IH]; intros st H Hnd Htg k tgt Hin.
  - by apply not_elem_of_nil in Hin.
  - simpl in H. inv_bind H. apply alias_step_Ok in Ha as (t & Ht & ->).
    cbn [fmap list_fmap fst snd] in Hnd, Htg.
    apply NoDup_cons in Hnd as [Hk0 Hnd].
    apply Forall_cons in Htg as [Ht0 Htg].
    apply elem_of_cons in Hin as [Heq|Hin].
    + simplify_eq. exists t. split; [done|].
      destruct (alias_loop_other _ _ _ H) as [_ Hother].
      destruct (Hother k0 Hk0) as [-> ->]. simpl.
      by rewrite !lookup_insert_eq.
    + assert (tgt ∈ al.*2) as Htgt.
      { apply list_elem_of_fmap. by exists (k, tgt). }
      assert (tgt ≠ k0) as Hne.
      { intros ->. rewrite Forall_forall in Htg.
        apply (Htg k0 Htgt). left. }
      assert (Forall (λ x, x ∉ al.*1) al.*2) as Htg'.
      { eapply Forall_impl; [exact Htg|]. simpl.
        intros x Hx Hx'. apply Hx. by right. }
      destruct (IH _ H Hnd Htg' k tgt Hin) as (t' & Ht' & Hall & Hsct).
      simpl in Ht'. rewrite lookup_insert_ne in Ht' by done. eauto.
Qed.

Lemma alias_loop_inv (al : list (string * string)) st st' :
  for_each al alias_step st = Ok st' →
  (∀ k t, sctypeDict st !! k = Some t → allTypes st !! k = Some t) →
  ∀ k t, sctypeDict st' !! k = Some t → allTypes st' !! k = Some t.
Proof.
  revert st. induction al as [|[k0 t0] al IH]; intros st H Hinv; simpl in H.
  - by simplify_eq.
  - inv_bind H. apply alias_step_Ok in Ha as (t & Ht & ->).
    apply (IH _ H). simpl. intros k t'.
    destruct (decide (k0 = k)) as [->|Hne].
    + by rewrite !lookup_insert_eq.
    + rewrite !lookup_insert_ne by done. apply Hinv.
Qed.

Lemma alias_loop_mono (al : list (string * string)) st st' k :
  for_each al alias_step st = Ok st' →
  is_Some (allTypes st !! k) → is_Some (allTypes st' !! k).
Proof.
  revert st. induction al as [|[k0 t0] al IH]; intros st H Hk; simpl in H.
  - by simplify_eq.
  - inv_bind H. apply alias_step_Ok in Ha as (t & Ht & ->).
    apply (IH _ H). simpl.
    destruct (decide (k0 = k)) as [->|Hne].
    + rewrite lookup_insert_eq. eauto.
    + by rewrite lookup_insert_ne.
Qed.

Lemma extra_alias_step_Ok k tgt st st' :
  extra_alias_step (k, tgt) st = Ok st' →
  ∃ t, allTypes st !! tgt = Some t ∧
       st' = Tables (<[k := t]> (sctypeDict st)) (allTypes st)
                    (c_names_dict st).
Proof.
  unfold extra_alias_step. cbn [fst snd]. intros H.
  inv_bind H. apply getitem_Ok in Ha. simplify_eq. eauto.
Qed.

Lemma extra_alias_loop_other (al : list (string * string)) st st' :
  for_each al extra_alias_step st = Ok st' →
  allTypes st' = allTypes st ∧
  c_names_dict st' = c_names_dict st ∧
  ∀ k, k ∉ al.*1 → sctypeDict st' !! k = sctypeDict st !! k.
Proof.
  revert st. induction al as [|[k0 t0] al IH]; intros st H; simpl in H.
  - by simplify_eq.
  - inv_bind H. apply extra_alias_step_Ok in Ha as (t & Ht & ->).
    apply IH in H as (-> & -> & Hother). split_and!; [done..|].
    intros k [Hne Hk]%not_elem_of_cons. simpl in Hne.
    rewrite (Hother k Hk). simpl. by rewrite lookup_insert_ne.
Qed.

Lemma extra_alias_loop_written (al : list (string * string)) st st' :
  for_each al extra_alias_step st = Ok st' →
  NoDup al.*1 →
  ∀ k tgt, (k, tgt) ∈ al →
    ∃ t, allTypes st !! tgt = Some t ∧ sctypeDict st' !! k = Some t.
Proof.
  revert st. induction al as [|[k0 t0] al IH]; intros st H Hnd k tgt Hin.
  - by apply not_elem_of_nil in Hin.
  - simpl in H. inv_bind H. apply extra_alias_step_Ok in Ha as (t & Ht & ->).
    cbn [fmap list_fmap fst] in Hnd. apply NoDup_cons in Hnd as [Hk0 Hnd].
    apply elem_of_cons in Hin as [Heq|Hin].
    + simplify_eq. exists t. split; [done|].
      destruct (extra_alias_loop_other _ _ _ H) as (_ & _ & Hother).
      rewrite (Hother k0 Hk0). simpl. by rewrite lookup_insert_eq.
    + by apply (IH _ H Hnd).
Qed.

Lemma extra_alias_loop_inv (al : list (string * string)) st st' :
  for_each al extra_alias_step st = Ok st' →
  ∀ k t, sctypeDict st' !! k = Some t →
    sctypeDict st !! k = Some t ∨
    ∃ tgt, (k, tgt) ∈ al ∧ allTypes st !! tgt = Some t.
Proof.
  revert st. induction al as [|[k0 t0] al IH]; intros st H k t' Hk.
  - simpl in H. simplify_eq. by left.
  - simpl in H. inv_bind H. apply extra_alias_step_Ok in Ha as (t & Ht & ->).
    destruct (IH _ H k t' Hk) as [Hold|(tgt & Hin & Htgt)].
    + simpl in Hold. destruct (decide (k0 = k)) as [->|Hne].
      * rewrite lookup_insert_eq in Hold. simplify_eq.
        right. exists t0. split; [left | done].
      * rewrite lookup_insert_ne in Hold by done. by left.
    + right. exists tgt. split; [by right | done].
Qed.

Lemma aliases_wf :
  NoDup _aliases.*1 ∧ Forall (λ tgt, tgt ∉ _aliases.*1) _aliases.*2.
Proof. split; by apply (bool_decide_unpack _). Qed.

Lemma extra_aliases_wf : NoDup _extra_aliases.*1.
Proof. by apply (bool_decide_unpack _). Qed.

(** ** The extended-precision loop *)

Lemma extended_step_Ok E c full st st' :
  extended_step E (c, full) st = Ok st' →
  ∃ t, allTypes st !! full = Some t ∧
    ((allTypes st !! extended_prec_name E c t = None ∧
      st' = Tables (<[extended_prec_name E c t := t]> (sctypeDict st))
                   (<[extended_prec_name E c t := t]> (allTypes st))
                   (c_names_dict st)) ∨
     (is_Some (allTypes st !! extended_prec_name E c t) ∧ st' = st)).
Proof.
  unfold extended_step. cbn [fst snd]. intros H.
  inv_bind H. apply getitem_Ok in Ha. exists a. split; [done|].
  unfold dict_contains in H. case_bool_decide as Hn; simplify_eq.
  - by right.
  - left. split; [|done]. by apply eq_None_not_Some.
Qed.

Lemma extended_name_float_ne_complex E t t' :
  extended_prec_name E false t ≠ extended_prec_name E true t'.
Proof. unfold extended_prec_name. by rewrite !append_cons. Qed.

Lemma extended_name_not_reserved E c t :
  startswith (extended_prec_name E c t) "NPY_" = false.
Proof. unfold extended_prec_name, startswith. by destruct c. Qed.

Lemma extended_name_not_extra E c t :
  extended_prec_name E c t ∉ _extra_aliases.*1.
Proof.
  unfold extended_prec_name. intros Hin.
  set (s := pretty (dtype_itemsize E t * 8)%N) in *.
  assert (s ≠ "") as Hs by apply pretty_N_nonempty.
  cbn [fmap list_fmap fst _extra_aliases] in Hin.
  repeat (apply elem_of_cons in Hin as [Hin|Hin];
    [destruct c; first [ by apply (append_nonempty_ne _ s Hs) in Hin
                       | by rewrite !append_cons in Hin ] |]).
  by apply not_elem_of_nil in Hin.
Qed.

Lemma extended_loop_spec E st4 st5 :
  for_each extended_names (extended_step E) st4 = Ok st5 →
  ∃ ld cld,
    allTypes st4 !! "longdouble" = Some ld ∧
    allTypes st4 !! "clongdouble" = Some cld ∧
    c_names_dict st5 = c_names_dict st4 ∧
    (∀ k, k ≠ extended_prec_name E false ld →
          k ≠ extended_prec_name E true cld →
          allTypes st5 !! k = allTypes st4 !! k ∧
          sctypeDict st5 !! k = sctypeDict st4 !! k) ∧
    (∀ c : bool,
       let t := if c then cld else ld in
       let n := extended_prec_name E c t in
       (allTypes st4 !! n = None →
          allTypes st5 !! n = Some t ∧ sctypeDict st5 !! n = Some t) ∧
       (is_Some (allTypes st4 !! n) →
          allTypes st5 !! n = allTypes st4 !! n ∧
          sctypeDict st5 !! n = sctypeDict st4 !! n)).
Proof.
  intros H. simpl in H. inv_bind H. inv_bind H. simplify_eq.
  apply extended_step_Ok in Ha as (ld & Hld & Hf).
  apply extended_step_Ok in Ha0 as (cld & Hcld & Hc).
  assert (extended_prec_name E false ld ≠ "clongdouble") as Hne1.
  { unfold extended_prec_name. by rewrite !append_cons. }
  pose proof (extended_name_float_ne_complex E ld cld) as Hne2.
  assert (allTypes st4 !! "clongdouble" = Some cld) as Hcld4.
  { destruct Hf as [[_ ->]|[_ ->]]; [|done].
    simpl in Hcld. by rewrite lookup_insert_ne in Hcld. }
  exists ld, cld. split_and!; [done..| | |].
  - by destruct Hf as [[_ ->]|[_ ->]], Hc as [[_ ->]|[_ ->]].
  - intros k Hk1 Hk2.
    destruct Hf as [[_ ->]|[_ ->]], Hc as [[_ ->]|[_ ->]]; simpl;
      by rewrite ?lookup_insert_ne.
  - intros [] t n; subst t n.
    + destruct Hf as [[Hnf ->]|[Hnf ->]], Hc as [[Hnc ->]|[Hnc ->]];
        simpl in *; rewrite ?lookup_insert_eq;
        rewrite ?lookup_insert_ne in * by done; split; intros Hn;
        try done; try (rewrite Hn in Hnc; by destruct Hnc);
        try (rewrite Hnc in Hn; by destruct Hn).
    + destruct Hf as [[Hnf ->]|[Hnf ->]], Hc as [[Hnc ->]|[Hnc ->]];
        simpl in *; rewrite ?(lookup_insert_ne _ _ _ _ (not_eq_sym Hne2));
        rewrite ?lookup_insert_eq; split; intros Hn;
        try done; try (rewrite Hn in Hnf; by destruct Hnf);
        try (rewrite Hnf in Hn; by destruct Hn).
Qed.

Lemma extended_loop_keeps E st4 st5 k :
  for_each extended_names (extended_step E) st4 = Ok st5 →
  is_Some (allTypes st4 !! k) →
  allTypes st5 !! k = allTypes st4 !! k ∧
  sctypeDict st5 !! k = sctypeDict st4 !! k.
Proof.
  intros H Hk.
  destruct (extended_loop_spec _ _ _ H) as (ld & cld & _ & _ & _ & Ho & Hn).
  destruct (decide (k = extended_prec_name E false ld)) as [->|Hf].
  { by apply (Hn false). }
  destruct (decide (k = extended_prec_name E true cld)) as [->|Hc].
  { by apply (Hn true). }
  by apply Ho.
Qed.

Lemma extended_loop_keeps_extra E st4 st5 k :
  for_each extended_names (extended_step E) st4 = Ok st5 →
  k ∈ _extra_aliases.*1 →
  allTypes st5 !! k = allTypes st4 !! k ∧
  sctypeDict st5 !! k = sctypeDict st4 !! k.
Proof.
  intros H Hk.
  destruct (extended_loop_spec _ _ _ H) as (ld & cld & _ & _ & _ & Ho & _).
  apply Ho; intros ->; by apply extended_name_not_extra in Hk.
Qed.

Lemma extended_loop_inv E st4 st5 :
  for_each extended_names (extended_step E) st4 = Ok st5 →
  (∀ k t, sctypeDict st4 !! k = Some t → ∃ k', allTypes st4 !! k' = Some t) →
  ∀ k t, sctypeDict st5 !! k = Some t → ∃ k', allTypes st5 !! k' = Some t.
Proof.
  intros H Hinv k t Hk.
  destruct (extended_loop_spec _ _ _ H) as (ld & cld & _ & _ & _ & Ho & Hn).
  assert (∀ c : bool,
    k = extended_prec_name E c (if c then cld else ld) →
    ∃ k', allTypes st5 !! k' = Some t) as Hext.
  { intros c ->. destruct (Hn c) as [Hnew Hold].
    destruct (allTypes st4 !! extended_prec_name E c (if c then cld else ld))
      as [t'|] eqn:Hl.
    - destruct Hold as [Hall Hsct]; [by eauto|].
      rewrite Hsct in Hk. destruct (Hinv _ _ Hk) as (k' & Hk').
      exists k'. by destruct (extended_loop_keeps _ _ _ k' H) as [-> _]; eauto.
    - destruct Hnew as [Hall Hsct]; [done|].
      rewrite Hsct in Hk. simplify_eq. eauto. }
  destruct (decide (k = extended_prec_name E false ld)) as [Hf|Hf].
  { by apply (Hext false). }
  destruct (decide (k = extended_prec_name E true cld)) as [Hc|Hc].
  { by apply (Hext true). }
  destruct (Ho k Hf Hc) as [_ Hsct]. rewrite Hsct in Hk.
  destruct (Hinv _ _ Hk) as (k' & Hk').
  exists k'. by destruct (extended_loop_keeps _ _ _ k' H) as [-> _]; eauto.
Qed.

(** ** The states between the loops of a completed run *)

Lemma build_tables_phases E typeinfo st5 :
  build_tables E typeinfo = Ok st5 →
  ∃ st1 st2 st3 st4,
    phase_abstract E = Ok st1 ∧
    phase_registry E typeinfo = Ok st2 ∧
    st2 = registry_loop typeinfo st1 ∧
    phase_aliases E typeinfo = Ok st3 ∧
    for_each _aliases alias_step st2 = Ok st3 ∧
    phase_extra_aliases E typeinfo = Ok st4 ∧
    for_each _extra_aliases extra_alias_step st3 = Ok st4 ∧
    for_each extended_names (extended_step E) st4 = Ok st5.
Proof.
  intros H. unfold build_tables in H. apply bind_Ok in H as (st4 & H4 & H5).
  pose proof H4 as H4'. unfold phase_extra_aliases in H4'.
  apply bind_Ok in H4' as (st3 & H3 & H34).
  pose proof H3 as H3'. unfold phase_aliases in H3'.
  apply bind_Ok in H3' as (st2 & H2 & H23).
  pose proof H2 as H2'. unfold phase_registry in H2'.
  apply bind_Ok in H2' as (st1 & H1 & H12). simplify_eq.
  by exists st1, (registry_loop typeinfo st1), st3, st4.
Qed.

Lemma phase_abstract_spec E st1 :
  phase_abstract E = Ok st1 →
  sctypeDict st1 = ∅ ∧ c_names_dict st1 = ∅ ∧
  (∀ k, k ∈ _abstract_type_names → is_Some (ma E k)) ∧
  ∀ k, allTypes st1 !! k =
       if decide (k ∈ _abstract_type_names) then ma E k else None.
Proof.
  intros H. unfold phase_abstract in H.
  pose proof (abstract_loop_defined _ _ _ _ H) as Hdef.
  apply abstract_loop_spec in H as (-> & -> & Hall).
  split_and!; [done..|]. intros k. rewrite Hall.
  case_decide; [done|]. apply lookup_empty.
Qed.

Lemma abstract_name_not_reserved k :
  k ∈ _abstract_type_names → startswith k "NPY_" = false.
Proof.
  intros Hk. unfold _abstract_type_names in Hk.
  repeat (apply elem_of_cons in Hk as [->|Hk]; [done|]).
  by apply not_elem_of_nil in Hk.
Qed.

Lemma alias_name_not_reserved k :
  k ∈ _aliases.*1 ++ _extra_aliases.*1 → startswith k "NPY_" = false.
Proof.
  intros Hk. cbn in Hk.
  repeat (apply elem_of_cons in Hk as [->|Hk]; [done|]).
  by apply not_elem_of_nil in Hk.
Qed.

Lemma registry_types_mono typeinfo m k :
  is_Some (m !! k) → is_Some (registry_types typeinfo m !! k).
Proof.
  induction typeinfo as [|[k' v'] l IH] using rev_ind; intros H; [done|].
  rewrite registry_types_snoc. cbn [fst snd].
  destruct (startswith k' "NPY_"); [by apply IH|].
  destruct (decide (k' = k)) as [->|Hne].
  - rewrite lookup_insert_eq. eauto.
  - rewrite lookup_insert_ne by done. by apply IH.
Qed.

Lemma registry_types_same_key typeinfo (m m' : gmap string pytype) :
  (∀ k t, m !! k = Some t → m' !! k = Some t) →
  ∀ k t, registry_types typeinfo m !! k = Some t →
         registry_types typeinfo m' !! k = Some t.
Proof.
  intros Hm. induction typeinfo as [|[k' v'] l IH] using rev_ind; [done|].
  intros k t. rewrite !registry_types_snoc. cbn [fst snd].
  destruct (startswith k' "NPY_"); [apply IH|].
  destruct (decide (k' = k)) as [->|Hne].
  - by rewrite !lookup_insert_eq.
  - rewrite !lookup_insert_ne by done. apply IH.
Qed.

(** Every key of [sctypeDict] before the extended-precision loop is a
    key of [allTypes] or one of the extra aliases. *)
Lemma sctypeDict_keys_before_extended E typeinfo st4 k :
  phase_extra_aliases E typeinfo = Ok st4 →
  is_Some (sctypeDict st4 !! k) →
  is_Some (allTypes st4 !! k) ∨ k ∈ _extra_aliases.*1.
Proof.
  intros H4 [t Hk]. unfold phase_extra_aliases in H4.
  apply bind_Ok in H4 as (st3 & H3 & H34).
  unfold phase_aliases in H3. apply bind_Ok in H3 as (st2 & H2 & H23).
  unfold phase_registry in H2. apply bind_Ok in H2 as (st1 & H1 & H12).
  simplify_eq. apply phase_abstract_spec in H1 as (Hs1 & _ & _ & _).
  destruct (extra_alias_loop_other _ _ _ H34) as (Hall & _ & _).
  destruct (extra_alias_loop_inv _ _ _ H34 _ _ Hk) as [Hold|(tgt & Hin & _)].
  - left. rewrite Hall. exists t.
    apply (alias_loop_inv _ _ _ H23); [|done].
    rewrite registry_loop_tables. simpl. rewrite Hs1.
    apply registry_types_same_key. intros k' t'. by rewrite lookup_empty.
  - right. apply list_elem_of_fmap. by exists (k, tgt).
Qed.

(** ** Properties of the name tables *)

(** C1 (as amended). A registry name that does not carry the [NPY_]
    prefix and is not the name of one of the sixteen aliases is, after the
    tables are built, a key of [sctypeDict] bound to the concrete type
    the registry gives it. *)
Theorem sctypeDict_registry_names E typeinfo st k v :
  NoDup typeinfo.*1 →
  build_tables E typeinfo = Ok st →
  (k, v) ∈ typeinfo →
  startswith k "NPY_" = false →
  k ∉ _aliases.*1 ++ _extra_aliases.*1 →
  sctypeDict st !! k = Some (type v).
Proof.
  intros Hnd H Hin Hk Hal.
  apply build_tables_phases in H
    as (st1 & st2 & st3 & st4 & _ & _ & -> & _ & H23 & _ & H34 & H45).
  apply not_elem_of_app in Hal as [Hal1 Hal2].
  destruct (alias_loop_other _ _ _ H23) as [_ H3].
  destruct (H3 k Hal1) as [Hall3 Hsct3].
  destruct (extra_alias_loop_other _ _ _ H34) as (Hall4 & _ & Hsct4).
  rewrite registry_loop_tables in Hall3, Hsct3. simpl in Hall3, Hsct3.
  rewrite (registry_types_public _ _ k v) in Hall3 by done.
  rewrite (registry_types_public _ _ k v) in Hsct3 by done.
  destruct (extended_loop_keeps _ _ _ k H45) as [_ ->].
  - rewrite Hall4, Hall3. eauto.
  - by rewrite Hsct4, Hsct3.
Qed.

(** C4. A registry entry whose name starts with [NPY_] is stored in
    [c_names_dict] under the name without the prefix, and its name is a
    key of neither [sctypeDict] nor [allTypes]. *)
Theorem reserved_names_diverted E typeinfo st k v :
  NoDup typeinfo.*1 →
  build_tables E typeinfo = Ok st →
  (k, v) ∈ typeinfo →
  startswith k "NPY_" = true →
  c_names_dict st !! str_from 4 k = Some v ∧
  sctypeDict st !! k = None ∧
  allTypes st !! k = None.
Proof.
  intros Hnd H Hin Hk.
  apply build_tables_phases in H
    as (st1 & st2 & st3 & st4 & H1 & _ & -> & _ & H23 & _ & H34 & H45).
  apply phase_abstract_spec in H1 as (Hs1 & Hc1 & _ & Ha1).
  destruct (alias_loop_other _ _ _ H23) as [Hc3 H3].
  destruct (extra_alias_loop_other _ _ _ H34) as (Hall4 & Hc4 & Hsct4).
  destruct (extended_loop_spec _ _ _ H45)
    as (ld & cld & _ & _ & Hc5 & Ho & _).
  assert (k ∉ _aliases.*1) as Hal1.
  { intros Hal. rewrite alias_name_not_reserved in Hk; [done|].
    apply elem_of_app. by left. }
  assert (k ∉ _extra_aliases.*1) as Hal2.
  { intros Hal. rewrite alias_name_not_reserved in Hk; [done|].
    apply elem_of_app. by right. }
  split.
  { rewrite Hc5, Hc4, Hc3, registry_loop_tables. simpl.
    by apply registry_c_names_reserved. }
  destruct (Ho k) as [-> ->].
  { intros ->. by rewrite extended_name_not_reserved in Hk. }
  { intros ->. by rewrite extended_name_not_reserved in Hk. }
  rewrite Hall4, (Hsct4 k Hal2). destruct (H3 k Hal1) as [-> ->].
  rewrite registry_loop_tables. simpl.
  rewrite !registry_types_other by done.
  rewrite Hs1, Ha1. split; [apply lookup_empty|].
  case_decide as Hab; [|done].
  by rewrite abstract_name_not_reserved in Hk.
Qed.

(** C8. After the tables are built, the type bound to any key of
    [sctypeDict] is also bound to some key of [allTypes]. *)
Theorem sctypeDict_types_in_allTypes E typeinfo st k t :
  build_tables E typeinfo = Ok st →
  sctypeDict st !! k = Some t →
  ∃ k', allTypes st !! k' = Some t.
Proof.
  intros H. apply build_tables_phases in H
    as (st1 & st2 & st3 & st4 & H1 & _ & -> & _ & H23 & _ & H34 & H45).
  revert k t. apply (extended_loop_inv _ _ _ H45).
  apply phase_abstract_spec in H1 as (Hs1 & _ & _ & _).
  destruct (extra_alias_loop_other _ _ _ H34) as (Hall4 & _ & _).
  intros k t Hk. rewrite Hall4.
  destruct (extra_alias_loop_inv _ _ _ H34 _ _ Hk) as [Hold|(tgt & _ & Ht)].
  - exists k. apply (alias_loop_inv _ _ _ H23); [|done].
    rewrite registry_loop_tables. simpl. rewrite Hs1.
    apply registry_types_same_key. intros k' t'. by rewrite lookup_empty.
  - by exists tgt.
Qed.

(** C10 (as amended). Each of the ten abstract category names is a key
    of [allTypes]; it is a key of [sctypeDict] only when the registry
    itself has an entry of that name, since no other loop writes one. *)
Theorem abstract_names_only_in_allTypes E typeinfo st k :
  build_tables E typeinfo = Ok st →
  k ∈ _abstract_type_names →
  is_Some (allTypes st !! k) ∧
  ((∀ v, (k, v) ∉ typeinfo) → sctypeDict st !! k = None).
Proof.
  intros H Hk.
  apply build_tables_phases in H
    as (st1 & st2 & st3 & st4 & H1 & _ & -> & _ & H23 & _ & H34 & H45).
  apply phase_abstract_spec in H1 as (Hs1 & _ & Hdef & Ha1).
  destruct (alias_loop_other _ _ _ H23) as [_ H3].
  destruct (extra_alias_loop_other _ _ _ H34) as (Hall4 & _ & Hsct4).
  assert (is_Some (allTypes st4 !! k)) as Hall.
  { rewrite Hall4. apply (alias_loop_mono _ _ _ _ H23).
    rewrite registry_loop_tables. simpl. apply registry_types_mono.
    rewrite Ha1, decide_True by done. by apply Hdef. }
  destruct (extended_loop_keeps _ _ _ k H45 Hall) as [-> ->].
  split; [done|]. intros Hreg.
  assert ((k ∉ _aliases.*1) ∧ (k ∉ _extra_aliases.*1)) as [Hal1 Hal2].
  { unfold _abstract_type_names in Hk.
    repeat (apply elem_of_cons in Hk as [->|Hk];
      [split; by apply (bool_decide_unpack _)|]).
    by apply not_elem_of_nil in Hk. }
  rewrite (Hsct4 k Hal2). destruct (H3 k Hal1) as [_ ->].
  rewrite registry_loop_tables. simpl.
  rewrite registry_types_other, Hs1; [apply lookup_empty|].
  intros v Hv. by destruct (Hreg v).
Qed.

(** C7 (as amended). The loop over the extra aliases writes each of the
    eleven names into [sctypeDict] and leaves [allTypes] as it was; such
    a name is a key of [allTypes] only when the registry itself has an
    entry of that name. *)
Theorem extra_aliases_only_in_sctypeDict E typeinfo st5 :
  build_tables E typeinfo = Ok st5 →
  ∃ st3 st4,
    phase_aliases E typeinfo = Ok st3 ∧
    phase_extra_aliases E typeinfo = Ok st4 ∧
    allTypes st4 = allTypes st3 ∧
    ∀ k, k ∈ _extra_aliases.*1 →
      is_Some (sctypeDict st5 !! k) ∧
      ((∀ v, (k, v) ∉ typeinfo) → allTypes st5 !! k = None).
Proof.
  intros H.
  apply build_tables_phases in H
    as (st1 & st2 & st3 & st4 & H1 & _ & -> & Hp3 & H23 & Hp4 & H34 & H45).
  apply phase_abstract_spec in H1 as (_ & _ & _ & Ha1).
  destruct (alias_loop_other _ _ _ H23) as [_ H3].
  destruct (extra_alias_loop_other _ _ _ H34) as (Hall4 & _ & _).
  exists st3, st4. split_and!; [done..|]. intros k Hk.
  destruct (extended_loop_keeps_extra _ _ _ k H45 Hk) as [-> ->]. split.
  - apply list_elem_of_fmap in Hk as ([k' tgt] & -> & Hin). cbn [fst].
    destruct (extra_alias_loop_written _ _ _ H34 extra_aliases_wf _ _ Hin)
      as (t & _ & ->). eauto.
  - intros Hreg.
    assert ((k ∉ _aliases.*1) ∧ (k ∉ _abstract_type_names)) as [Hal1 Hab].
    { cbn in Hk.
      repeat (apply elem_of_cons in Hk as [->|Hk];
        [split; by apply (bool_decide_unpack _)|]).
      by apply not_elem_of_nil in Hk. }
    rewrite Hall4. destruct (H3 k Hal1) as [-> _].
    rewrite registry_loop_tables. simpl.
    rewrite registry_types_other, Ha1; [by rewrite decide_False|].
    intros v Hv. by destruct (Hreg v).
Qed.

(** C3 (as amended). The loops run in the order abstract names,
    registry, [_aliases], [_extra_aliases], extended-precision names.
    Each of the first four binds the names it writes whatever an earlier
    loop bound them to, and leaves every other name as it found it; the
    last loop changes no name that is already a key. *)
Theorem loops_overwrite_in_order E typeinfo st5 :
  NoDup typeinfo.*1 →
  build_tables E typeinfo = Ok st5 →
  ∃ st1 st2 st3 st4,
    phase_abstract E = Ok st1 ∧
    phase_registry E typeinfo = Ok st2 ∧
    phase_aliases E typeinfo = Ok st3 ∧
    phase_extra_aliases E typeinfo = Ok st4 ∧
    (∀ k, k ∈ _abstract_type_names → allTypes st1 !! k = ma E k) ∧
    (∀ k v, (k, v) ∈ typeinfo → startswith k "NPY_" = false →
       allTypes st2 !! k = Some (type v) ∧
       sctypeDict st2 !! k = Some (type v)) ∧
    (∀ k, (∀ v, (k, v) ∉ typeinfo) →
       allTypes st2 !! k = allTypes st1 !! k ∧
       sctypeDict st2 !! k = sctypeDict st1 !! k) ∧
    (∀ k tgt, (k, tgt) ∈ _aliases →
       allTypes st3 !! k = allTypes st2 !! tgt ∧
       sctypeDict st3 !! k = allTypes st2 !! tgt) ∧
    (∀ k, k ∉ _aliases.*1 →
       allTypes st3 !! k = allTypes st2 !! k ∧
       sctypeDict st3 !! k = sctypeDict st2 !! k) ∧
    (∀ k tgt, (k, tgt) ∈ _extra_aliases →
       sctypeDict st4 !! k = allTypes st3 !! tgt) ∧
    (∀ k, k ∉ _extra_aliases.*1 →
       sctypeDict st4 !! k = sctypeDict st3 !! k) ∧
    allTypes st4 = allTypes st3 ∧
    (∀ k, is_Some (allTypes st4 !! k) ∨ is_Some (sctypeDict st4 !! k) →
       allTypes st5 !! k = allTypes st4 !! k ∧
       sctypeDict st5 !! k = sctypeDict st4 !! k).
Proof.
  intros Hnd H.
  apply build_tables_phases in H
    as (st1 & st2 & st3 & st4 & Hp1 & Hp2 & -> & Hp3 & H23 & Hp4 & H34 & H45).
  exists st1, (registry_loop typeinfo st1), st3, st4.
  split_and!; try done.
  - apply phase_abstract_spec in Hp1 as (_ & _ & _ & Ha1).
    intros k Hk. by rewrite Ha1, decide_True.
  - intros k v Hin Hk. rewrite registry_loop_tables. simpl.
    by rewrite !(registry_types_public _ _ k v).
  - intros k Hreg. rewrite registry_loop_tables. simpl.
    rewrite !registry_types_other; [done|..];
      intros v Hv; by destruct (Hreg v).
  - intros k tgt Hin. destruct aliases_wf as [Hnd' Htg].
    destruct (alias_loop_written _ _ _ H23 Hnd' Htg k tgt Hin)
      as (t & -> & -> & ->). done.
  - by destruct (alias_loop_other _ _ _ H23) as [_ H3].
  - intros k tgt Hin.
    destruct (extra_alias_loop_written _ _ _ H34 extra_aliases_wf k tgt Hin)
      as (t & -> & ->). done.
  - by destruct (extra_alias_loop_other _ _ _ H34) as (_ & _ & H4).
  - by destruct (extra_alias_loop_other _ _ _ H34) as (H4 & _ & _).
  - intros k [Hk|Hk]; [by apply (extended_loop_keeps E)|].
    destruct (sctypeDict_keys_before_extended _ _ _ _ Hp4 Hk) as [Hk'|Hk'].
    + by apply (extended_loop_keeps E).
    + by apply (extended_loop_keeps_extra E).
Qed.



(** ** Sorting *)

Section sort_by.
Context {A : Type} (key : A → N).

Lemma insert_by_perm x l : insert_by key x l ≡ₚ x :: l.
Proof.
  induction l as [|y l IH]; simpl; [done|].
  destruct (key x <=? key y)%N; [done|].
  rewrite IH. apply Permutation_swap.
Qed.

Lemma sort_by_perm l : sort_by key l ≡ₚ l.
Proof.
  induction l as [|x l IH]; simpl; [done|].
  by rewrite insert_by_perm, IH.
Qed.

Lemma insert_by_sorted x l :
  StronglySorted (key_le key) l →
  StronglySorted (key_le key) (insert_by key x l).
Proof.
  induction 1 as [|y l Hl IH Hy]; simpl.
  - repeat constructor.
  - destruct (key x <=? key y)%N eqn:Hxy.
    + apply N.leb_le in Hxy. constructor; [by constructor|].
      constructor; [done|]. eapply Forall_impl; [exact Hy|].
      unfold key_le. intros z Hz. lia.
    + apply N.leb_gt in Hxy. constructor; [done|].
      rewrite insert_by_perm. constructor; [|done].
      unfold key_le. lia.
Qed.

Lemma sort_by_sorted l : StronglySorted (key_le key) (sort_by key l).
Proof.
  induction l as [|x l IH]; simpl; [constructor|].
  by apply insert_by_sorted.
Qed.

(** Stability: the elements of one key stay in the order they had. *)
Lemma insert_by_stable w x l :
  filter (λ y, key y = w) (insert_by key x l) =
  filter (λ y, key y = w) (x :: l).
Proof.
  induction l as [|y l IH]; simpl; [done|].
  destruct (key x <=? key y)%N eqn:Hxy; [done|].
  apply N.leb_gt in Hxy.
  rewrite (filter_cons _ y), IH, !filter_cons.
  repeat case_decide; try done. lia.
Qed.

Lemma sort_by_stable w l :
  filter (λ y, key y = w) (sort_by key l) = filter (λ y, key y = w) l.
Proof.
  induction l as [|x l IH]; simpl; [done|].
  by rewrite insert_by_stable, !filter_cons, IH.
Qed.
End sort_by.

(** ** The classifier *)

Lemma members_cons E groups g v values :
  members E groups g (v :: values) =
  if decide (group_of E groups v = Some g)
  then type v :: members E groups g values
  else members E groups g values.
Proof. unfold members. rewrite filter_cons. by case_decide. Qed.

Lemma classify_loop_spec E groups values sct sct' :
  group_table E = Ok groups →
  for_each values (classify_step E) sct = Ok sct' →
  ∀ g, sct' !! g = (λ l, l ++ members E groups g values) <$> sct !! g.
Proof.
  intros Hg. revert sct.
  induction values as [|v values IH]; intros sct H g; simpl in H.
  - simplify_eq. unfold members. simpl.
    destruct (sct' !! g); simpl; [by rewrite app_nil_r | done].
  - inv_bind H. rewrite (IH _ H g), members_cons.
    unfold classify_step in Ha. unfold group_of.
    destruct (is_time_kind v).
    { simplify_eq. by rewrite decide_False. }
    rewrite Hg in Ha. simpl in Ha.
    destruct (first_group E (type v) groups) as [g0|]; simpl in Ha.
    + inv_bind Ha. apply getitem_Ok in Ha0. simplify_eq.
      destruct (decide (g0 = g)) as [->|Hne].
      * rewrite decide_True by done. rewrite lookup_insert_eq, Ha0. simpl.
        by rewrite <- app_assoc.
      * rewrite decide_False by congruence.
        by rewrite lookup_insert_ne.
    + simplify_eq. by rewrite decide_False.
Qed.

Lemma group_table_defined E :
  (∀ k, k ∈ _abstract_type_names → is_Some (ma E k)) →
  ∃ si ui fl cf ge,
    ma E "signedinteger" = Some si ∧ ma E "unsignedinteger" = Some ui ∧
    ma E "floating" = Some fl ∧ ma E "complexfloating" = Some cf ∧
    ma E "generic" = Some ge ∧
    group_table E = Ok [("int", si); ("uint", ui); ("float", fl);
                        ("complex", cf); ("others", ge)].
Proof.
  intros Hdef.
  destruct (Hdef "signedinteger") as [si Hsi]; [by apply (bool_decide_unpack _)|].
  destruct (Hdef "unsignedinteger") as [ui Hui]; [by apply (bool_decide_unpack _)|].
  destruct (Hdef "floating") as [fl Hfl]; [by apply (bool_decide_unpack _)|].
  destruct (Hdef "complexfloating") as [cf Hcf]; [by apply (bool_decide_unpack _)|].
  destruct (Hdef "generic") as [ge Hge]; [by apply (bool_decide_unpack _)|].
  exists si, ui, fl, cf, ge. split_and!; [done..|].
  unfold group_table, getattr. by rewrite Hsi, Hui, Hfl, Hcf, Hge.
Qed.

Lemma first_group_name E t groups g :
  first_group E t groups = Some g → g ∈ groups.*1.
Proof.
  induction groups as [|[g0 a] groups IH]; simpl; [done|].
  destruct (issubclass E t a).
  - intros [= ->]. left.
  - intros H. right. by apply IH.
Qed.

(** A completed run of the module, taken apart. *)
Lemma script_parts E typeinfo values st :
  script E typeinfo values = Ok st →
  build_tables E typeinfo = Ok (names st) ∧
  ∃ si ui fl cf ge,
    ma E "signedinteger" = Some si ∧ ma E "unsignedinteger" = Some ui ∧
    ma E "floating" = Some fl ∧ ma E "complexfloating" = Some cf ∧
    ma E "generic" = Some ge ∧
    let groups := [("int", si); ("uint", ui); ("float", fl);
                   ("complex", cf); ("others", ge)] in
    group_table E = Ok groups ∧
    ∃ G0, classify E values = Ok G0 ∧
      (∀ g, g ∈ group_names → G0 !! g = Some (members E groups g values)) ∧
      (∀ g, g ∉ group_names → G0 !! g = None) ∧
      sctypes st = sort_by (dtype_itemsize E) <$> G0.
Proof.
  intros H. unfold script in H. apply bind_Ok in H as (T & HT & H).
  apply bind_Ok in H as (G & HG & H). simplify_eq. simpl. split; [done|].
  pose proof (build_tables_phases _ _ _ HT)
    as (st1 & st2 & st3 & st4 & H1 & _).
  apply phase_abstract_spec in H1 as (_ & _ & Hdef & _).
  destruct (group_table_defined E Hdef)
    as (si & ui & fl & cf & ge & Hsi & Hui & Hfl & Hcf & Hge & Hgt).
  exists si, ui, fl, cf, ge. cbv zeta. do 6 (split; [done|]).
  unfold build_sctypes in HG. apply bind_Ok in HG as (G0 & HG0 & HG).
  simplify_eq. exists G0. split_and!; [done| | |done].
  - intros g Hg. unfold classify in HG0.
    rewrite (classify_loop_spec _ _ _ _ _ Hgt HG0 g).
    unfold group_names in Hg.
    repeat (apply elem_of_cons in Hg as [->|Hg]; [done|]).
    by apply not_elem_of_nil in Hg.
  - intros g Hg. unfold classify in HG0.
    rewrite (classify_loop_spec _ _ _ _ _ Hgt HG0 g).
    unfold sctypes_init. rewrite !lookup_insert_ne, lookup_empty; [done|..];
      intros <-; apply Hg; by apply (bool_decide_unpack _).
Qed.

Lemma group_sorted_members E (G0 : gmap string (list pytype)) g l0 :
  G0 !! g = Some l0 →
  group (sort_by (dtype_itemsize E) <$> G0) g = sort_by (dtype_itemsize E) l0.
Proof. intros H. unfold group. by rewrite lookup_fmap, H. Qed.

Lemma elem_of_members E groups g values t :
  t ∈ members E groups g values ↔
  ∃ v, v ∈ values ∧ group_of E groups v = Some g ∧ type v = t.
Proof.
  unfold members. rewrite list_elem_of_fmap. split.
  - intros (v & -> & [Hg Hv]%list_elem_of_filter). eauto.
  - intros (v & Hv & Hg & <-). exists v. split; [done|].
    by apply list_elem_of_filter.
Qed.

Lemma group_of_name E groups g v :
  group_table E = Ok groups → group_of E groups v = Some g →
  g ∈ group_names.
Proof.
  intros Hgt Hg. unfold group_of in Hg. destruct (is_time_kind v); [done|].
  apply first_group_name in Hg. unfold group_table in Hgt.
  repeat inv_bind Hgt. by simplify_eq.
Qed.

Lemma group_members E typeinfo values st groups g :
  script E typeinfo values = Ok st →
  group_table E = Ok groups →
  group (sctypes st) g ≡ₚ members E groups g values.
Proof.
  intros H Hgt.
  destruct (script_parts _ _ _ _ H) as (_ & si & ui & fl & cf & ge & _ & _
    & _ & _ & _ & Hgt' & G0 & _ & Hin & Hout & ->).
  rewrite Hgt in Hgt'. simplify_eq.
  destruct (decide (g ∈ group_names)) as [Hg|Hg].
  - rewrite (group_sorted_members _ _ _ _ (Hin g Hg)). apply sort_by_perm.
  - unfold group. rewrite lookup_fmap, (Hout g Hg). simpl.
    destruct (members E _ g values) as [|t l] eqn:Hm; [done|].
    assert (t ∈ members E
      [("int", si); ("uint", ui); ("float", fl); ("complex", cf);
       ("others", ge)] g values) as Ht by (rewrite Hm; left).
    apply elem_of_members in Ht as (v & _ & Hv & _).
    destruct Hg. by eapply group_of_name.
Qed.

Lemma elem_of_group E typeinfo values st groups g t :
  script E typeinfo values = Ok st →
  group_table E = Ok groups →
  t ∈ group (sctypes st) g ↔
  ∃ v, v ∈ values ∧ group_of E groups v = Some g ∧ type v = t.
Proof.
  intros H Hgt. rewrite (group_members _ _ _ _ _ g H Hgt).
  apply elem_of_members.
Qed.


(** ** The script completes *)

Lemma abstract_loop_completes E (l : list string) st :
  (∀ k, k ∈ l → is_Some (ma E k)) →
  ∃ st', for_each l (abstract_step E) st = Ok st'.
Proof.
  revert st. induction l as [|n l IH]; intros st Hdef; simpl; [eauto|].
  destruct (Hdef n) as [t Ht]; [left|].
  unfold abstract_step, getattr. rewrite Ht. simpl.
  apply IH. intros k Hk. apply Hdef. by right.
Qed.

Lemma registry_types_defined typeinfo m k v :
  (k, v) ∈ typeinfo → startswith k "NPY_" = false →
  is_Some (registry_types typeinfo m !! k).
Proof.
  induction typeinfo as [|[k' v'] l IH] using rev_ind; intros Hin Hk.
  - by apply not_elem_of_nil in Hin.
  - rewrite registry_types_snoc. cbn [fst snd].
    apply elem_of_app in Hin as [Hin|Hin].
    + destruct (startswith k' "NPY_"); [by apply IH|].
      destruct (decide (k' = k)) as [->|Hne].
      * rewrite lookup_insert_eq. eauto.
      * rewrite lookup_insert_ne by done. by apply IH.
    + apply list_elem_of_singleton in Hin. simplify_eq.
      rewrite Hk, lookup_insert_eq. eauto.
Qed.

Lemma alias_loop_completes (al : list (string * string)) st :
  (∀ tgt, tgt ∈ al.*2 → is_Some (allTypes st !! tgt)) →
  ∃ st', for_each al alias_step st = Ok st'.
Proof.
  revert st. induction al as [|[k tgt] al IH]; intros st Hdef; simpl; [eauto|].
  destruct (Hdef tgt) as [t Ht]; [left|].
  unfold alias_step, getitem. cbn [fst snd]. rewrite Ht. simpl.
  apply IH. simpl. intros tgt' Htgt'.
  destruct (decide (k = tgt')) as [->|Hne].
  - rewrite lookup_insert_eq. eauto.
  - rewrite lookup_insert_ne by done. apply Hdef. by right.
Qed.

Lemma extra_alias_loop_completes (al : list (string * string)) st :
  (∀ tgt, tgt ∈ al.*2 → is_Some (allTypes st !! tgt)) →
  ∃ st', for_each al extra_alias_step st = Ok st'.
Proof.
  revert st. induction al as [|[k tgt] al IH]; intros st Hdef; simpl; [eauto|].
  destruct (Hdef tgt) as [t Ht]; [left|].
  unfold extra_alias_step, getitem. cbn [fst snd]. rewrite Ht. simpl.
  apply IH. simpl. intros tgt' Htgt'. apply Hdef. by right.
Qed.

Lemma extended_step_completes E c full st :
  is_Some (allTypes st !! full) →
  ∃ st', extended_step E (c, full) st = Ok st' ∧
         ∀ k, is_Some (allTypes st !! k) → is_Some (allTypes st' !! k).
Proof.
  intros [t Ht]. unfold extended_step, getitem. cbn [fst snd].
  rewrite Ht. simpl. case_bool_decide.
  - by exists st.
  - eexists. split; [done|]. simpl. intros k Hk.
    destruct (decide (extended_prec_name E c t = k)) as [->|Hne].
    + rewrite lookup_insert_eq. eauto.
    + by rewrite lookup_insert_ne.
Qed.

Lemma extended_loop_completes E st :
  is_Some (allTypes st !! "longdouble") →
  is_Some (allTypes st !! "clongdouble") →
  ∃ st', for_each extended_names (extended_step E) st = Ok st'.
Proof.
  intros Hld Hcld. unfold extended_names. cbn [for_each].
  destruct (extended_step_completes E false "longdouble" st Hld)
    as (st1 & -> & Hmono). simpl.
  destruct (extended_step_completes E true "clongdouble" st1 (Hmono _ Hcld))
    as (st2 & -> & _). simpl. eauto.
Qed.

Lemma classify_step_completes E groups v sct :
  group_table E = Ok groups →
  (∀ g, g ∈ groups.*1 → is_Some (sct !! g)) →
  ∃ sct', classify_step E v sct = Ok sct' ∧
          ∀ g, g ∈ groups.*1 → is_Some (sct' !! g).
Proof.
  intros Hgt Hkeys. unfold classify_step.
  destruct (is_time_kind v); [by exists sct|].
  rewrite Hgt. simpl.
  destruct (first_group E (type v) groups) as [g|] eqn:Hg;
    [|by exists sct].
  destruct (Hkeys g) as [l Hl]; [by eapply first_group_name|].
  unfold getitem. rewrite Hl. simpl. eexists. split; [done|].
  intros g' Hg'. destruct (decide (g = g')) as [->|Hne].
  - rewrite lookup_insert_eq. eauto.
  - rewrite lookup_insert_ne by done. by apply Hkeys.
Qed.

Lemma classify_loop_completes E groups values sct :
  group_table E = Ok groups →
  (∀ g, g ∈ groups.*1 → is_Some (sct !! g)) →
  ∃ sct', for_each values (classify_step E) sct = Ok sct'.
Proof.
  intros Hgt. revert sct.
  induction values as [|v values IH]; intros sct Hkeys; cbn [for_each];
    [eauto|].
  destruct (classify_step_completes E groups v sct Hgt Hkeys)
    as (sct1 & -> & Hkeys1). simpl. by apply IH.
Qed.

(** No exception is raised when [ma] has the ten abstract types and the
    registry has, without the [NPY_] prefix, the thirteen names that the
    alias loops and the extended-precision loop look up. *)
Theorem script_completes E typeinfo values :
  (∀ k, k ∈ _abstract_type_names → is_Some (ma E k)) →
  (∀ n, n ∈ _aliases.*2 ++ _extra_aliases.*2 ++ extended_names.*2 →
        ∃ v, (n, v) ∈ typeinfo) →
  ∃ st, script E typeinfo values = Ok st.
Proof.
  intros Hma Hreg.
  destruct (abstract_loop_completes E _abstract_type_names empty_tables Hma)
    as [st1 H1].
  assert (∀ n, n ∈ _aliases.*2 ++ _extra_aliases.*2 ++ extended_names.*2 →
            is_Some (allTypes (registry_loop typeinfo st1) !! n)) as H2.
  { intros n Hn. destruct (Hreg n Hn) as [v Hv].
    rewrite registry_loop_tables. simpl.
    apply (registry_types_defined _ _ n v Hv).
    cbn in Hn. repeat (apply elem_of_cons in Hn as [->|Hn]; [done|]).
    by apply not_elem_of_nil in Hn. }
  destruct (alias_loop_completes _aliases (registry_loop typeinfo st1))
    as [st3 H3].
  { intros tgt Htgt. apply H2. apply elem_of_app. by left. }
  assert (∀ n, n ∈ _aliases.*2 ++ _extra_aliases.*2 ++ extended_names.*2 →
            is_Some (allTypes st3 !! n)) as H3'.
  { intros n Hn. apply (alias_loop_mono _ _ _ _ H3). by apply H2. }
  destruct (extra_alias_loop_completes _extra_aliases st3) as [st4 H4].
  { intros tgt Htgt. apply H3'. apply elem_of_app. right.
    apply elem_of_app. by left. }
  destruct (extra_alias_loop_other _ _ _ H4) as (Hall4 & _ & _).
  destruct (extended_loop_completes E st4) as [st5 H5].
  { rewrite Hall4. apply H3'. by apply (bool_decide_unpack _). }
  { rewrite Hall4. apply H3'. by apply (bool_decide_unpack _). }
  destruct (group_table_defined E Hma)
    as (si & ui & fl & cf & ge & _ & _ & _ & _ & _ & Hgt).
  destruct (classify_loop_completes E _ values sctypes_init Hgt) as [G0 HG0].
  { intros g Hg. cbn in Hg.
    repeat (apply elem_of_cons in Hg as [->|Hg]; [by eexists|]).
    by apply not_elem_of_nil in Hg. }
  change (phase_abstract E = Ok st1) in H1.
  change (classify E values = Ok G0) in HG0.
  eexists. unfold script, build_tables, phase_extra_aliases, phase_aliases,
    phase_registry, build_sctypes.
  rewrite H1. cbn [mbind result_bind]. rewrite H3. cbn [mbind result_bind].
  rewrite H4. cbn [mbind result_bind]. rewrite H5. cbn [mbind result_bind].
  rewrite HG0. cbn [mbind result_bind]. done.
Qed.

(** ** Properties of the group lists *)

(** C6. In the finished module each of the five group lists is in
    non-decreasing order of [dtype(x).itemsize], and it holds the types
    the classifier appended, those of one width in the order in which
    they were appended. *)
Theorem sctypes_sorted_by_itemsize E typeinfo values st g :
  script E typeinfo values = Ok st →
  g ∈ group_names →
  ∃ G0 l0 l,
    classify E values = Ok G0 ∧
    G0 !! g = Some l0 ∧
    sctypes st !! g = Some l ∧
    StronglySorted (key_le (dtype_itemsize E)) l ∧
    l ≡ₚ l0 ∧
    ∀ w, filter (λ x, dtype_itemsize E x = w) l =
         filter (λ x, dtype_itemsize E x = w) l0.
Proof.
  intros H Hg.
  destruct (script_parts _ _ _ _ H) as (_ & si & ui & fl & cf & ge & _ & _
    & _ & _ & _ & _ & G0 & HG0 & Hin & _ & Hst).
  exists G0, (members E [("int", si); ("uint", ui); ("float", fl);
                         ("complex", cf); ("others", ge)] g values).
  eexists. split_and!; [done | by apply Hin | | | |].
  - by rewrite Hst, lookup_fmap, (Hin g Hg).
  - apply (sort_by_sorted (dtype_itemsize E)).
  - apply sort_by_perm.
  - intros w. apply sort_by_stable.
Qed.


(** C9 (as amended). A registry entry of kind [M] or [m] whose name
    does not carry the [NPY_] prefix is written by the registry loop into
    both [sctypeDict] and [allTypes], bound to its concrete type, and its
    name is a key of both tables when the module is finished (still bound
    to that type unless an alias has the same name).  Only the classifier
    looks at the kind: it appends nothing for such a value, so a type
    that only values of kind [M] or [m] carry is in no group list. *)
Theorem time_kinds_in_name_tables E typeinfo values st k v :
  NoDup typeinfo.*1 →
  script E typeinfo values = Ok st →
  (k, v) ∈ typeinfo →
  is_time_kind v = true →
  startswith k "NPY_" = false →
  (∃ st2, phase_registry E typeinfo = Ok st2 ∧
          sctypeDict st2 !! k = Some (type v) ∧
          allTypes st2 !! k = Some (type v)) ∧
  is_Some (sctypeDict (names st) !! k) ∧
  is_Some (allTypes (names st) !! k) ∧
  (k ∉ _aliases.*1 → allTypes (names st) !! k = Some (type v)) ∧
  (k ∉ _aliases.*1 ++ _extra_aliases.*1 →
     sctypeDict (names st) !! k = Some (type v)) ∧
  (∀ sct, classify_step E v sct = Ok sct) ∧
  ((∀ v', v' ∈ values → type v' = type v → is_time_kind v' = true) →
     ∀ g, type v ∉ group (sctypes st) g).
Proof.
  intros Hnd H Hin Htime Hk.
  destruct (script_parts _ _ _ _ H) as (HT & si & ui & fl & cf & ge & _ & _
    & _ & _ & _ & Hgt & _).
  cbv zeta in Hgt.
  pose proof (build_tables_phases _ _ _ HT)
    as (st1 & st2 & st3 & st4 & _ & Hp2 & -> & _ & H23 & _ & H34 & H45).
  destruct (alias_loop_other _ _ _ H23) as [_ H3].
  destruct (extra_alias_loop_other _ _ _ H34) as (Hall4 & _ & Hsct4).
  destruct aliases_wf as [Hnd' Htg].
  assert (allTypes (registry_loop typeinfo st1) !! k = Some (type v) ∧
          sctypeDict (registry_loop typeinfo st1) !! k = Some (type v))
    as [Hall2 Hsct2].
  { rewrite registry_loop_tables. simpl.
    by rewrite !(registry_types_public _ _ k v). }
  assert (is_Some (allTypes st4 !! k)) as Hsome.
  { rewrite Hall4. apply (alias_loop_mono _ _ _ _ H23). eauto. }
  destruct (extended_loop_keeps _ _ _ k H45 Hsome) as [Hall5 Hsct5].
  split_and!.
  - by exists (registry_loop typeinfo st1).
  - rewrite Hsct5.
    destruct (decide (k ∈ _extra_aliases.*1)) as [Hex|Hex].
    { apply list_elem_of_fmap in Hex as ([k' tgt] & -> & Hex).
      destruct (extra_alias_loop_written _ _ _ H34 extra_aliases_wf _ _ Hex)
        as (t & _ & Ht). eauto. }
    rewrite (Hsct4 k Hex).
    destruct (decide (k ∈ _aliases.*1)) as [Hal|Hal].
    { apply list_elem_of_fmap in Hal as ([k' tgt] & -> & Hal).
      destruct (alias_loop_written _ _ _ H23 Hnd' Htg _ _ Hal)
        as (t & _ & _ & Ht). eauto. }
    destruct (H3 k Hal) as [_ ->]. eauto.
  - by rewrite Hall5.
  - intros Hal. rewrite Hall5, Hall4. by destruct (H3 k Hal) as [-> _].
  - intros [Hal Hex]%not_elem_of_app.
    rewrite Hsct5, (Hsct4 k Hex). by destruct (H3 k Hal) as [_ ->].
  - intros sct. unfold classify_step. by rewrite Htime.
  - intros Honly g Hg.
    apply (elem_of_group _ _ _ _ _ _ _ H Hgt) in Hg as (v' & Hv' & Hg & Ht).
    unfold group_of in Hg. by rewrite (Honly v' Hv' Ht) in Hg.
Qed.

(** ** The properties on concrete registries *)




Ltac by_evaluation :=
  first [ apply (bool_decide_unpack _); vm_compute; exact I
        | vm_compute; reflexivity ].

(** Where C1 fails as first stated: the registry names the C type
    [float], which is [float32]; the extra alias of the same name then
    rebinds [float] to [float64]. *)
Lemma registry_name_rebound_counterexample :
  NoDup Sample.typeinfo_c_names.*1 ∧
  build_tables (Sample.E 16) Sample.typeinfo_c_names =
    Ok (Sample.tables_of (Sample.E 16) Sample.typeinfo_c_names) ∧
  ("float", TypeInfo "f" Sample.float32) ∈ Sample.typeinfo_c_names ∧
  startswith "float" "NPY_" = false ∧
  sctypeDict (Sample.tables_of (Sample.E 16) Sample.typeinfo_c_names)
    !! "float" = Some Sample.float64 ∧
  Sample.float64 ≠ type (TypeInfo "f" Sample.float32).
Proof. split_and!; by_evaluation. Qed.

Lemma sctypeDict_registry_names_witness :
  build_tables (Sample.E 16) Sample.typeinfo_c_names =
    Ok (Sample.tables_of (Sample.E 16) Sample.typeinfo_c_names) ∧
  sctypeDict (Sample.tables_of (Sample.E 16) Sample.typeinfo_c_names)
    !! "intc" = Some Sample.int32.
Proof.
  split; [by_evaluation|].
  apply (sctypeDict_registry_names (Sample.E 16) Sample.typeinfo_c_names
           _ "intc" (TypeInfo "i" Sample.int32)); by_evaluation.
Defined.

Lemma reserved_names_diverted_witness :
  build_tables (Sample.E 16) Sample.typeinfo =
    Ok (Sample.tables_of (Sample.E 16) Sample.typeinfo) ∧
  c_names_dict (Sample.tables_of (Sample.E 16) Sample.typeinfo) !! "DOUBLE"
    = Some (TypeInfo "f" Sample.float64) ∧
  sctypeDict (Sample.tables_of (Sample.E 16) Sample.typeinfo)
    !! "NPY_DOUBLE" = None ∧
  allTypes (Sample.tables_of (Sample.E 16) Sample.typeinfo)
    !! "NPY_DOUBLE" = None.
Proof.
  split; [by_evaluation|].
  apply (reserved_names_diverted (Sample.E 16) Sample.typeinfo
           _ "NPY_DOUBLE" (TypeInfo "f" Sample.float64)); by_evaluation.
Defined.

Lemma sctypeDict_types_in_allTypes_witness :
  sctypeDict (Sample.tables_of (Sample.E 16) Sample.typeinfo) !! "unicode"
    = Some Sample.str_ ∧
  ∃ k', allTypes (Sample.tables_of (Sample.E 16) Sample.typeinfo) !! k'
          = Some Sample.str_.
Proof.
  split; [by_evaluation|].
  apply (sctypeDict_types_in_allTypes (Sample.E 16) Sample.typeinfo
           _ "unicode" Sample.str_); by_evaluation.
Defined.

(** Where C3 fails as first stated: on a platform whose [long double]
    is 8 bytes wide the extended-precision name is [float64], already
    bound by the registry, and the last loop leaves that binding alone
    instead of rebinding the name to [longdouble]. *)
Lemma extended_loop_does_not_overwrite_counterexample :
  build_tables (Sample.E 8) Sample.typeinfo =
    Ok (Sample.tables_of (Sample.E 8) Sample.typeinfo) ∧
  allTypes (Sample.tables_of (Sample.E 8) Sample.typeinfo) !! "longdouble"
    = Some Sample.longdouble ∧
  extended_prec_name (Sample.E 8) false Sample.longdouble = "float64" ∧
  allTypes (Sample.tables_of (Sample.E 8) Sample.typeinfo) !! "float64"
    = Some Sample.float64 ∧
  sctypeDict (Sample.tables_of (Sample.E 8) Sample.typeinfo) !! "float64"
    = Some Sample.float64 ∧
  Sample.float64 ≠ Sample.longdouble.
Proof. split_and!; by_evaluation. Qed.

Lemma loops_overwrite_in_order_witness :
  build_tables (Sample.E 8) Sample.typeinfo_c_names =
    Ok (Sample.tables_of (Sample.E 8) Sample.typeinfo_c_names) ∧
  ∃ st1 st2 st3 st4,
    phase_abstract (Sample.E 8) = Ok st1 ∧
    phase_registry (Sample.E 8) Sample.typeinfo_c_names = Ok st2 ∧
    phase_aliases (Sample.E 8) Sample.typeinfo_c_names = Ok st3 ∧
    phase_extra_aliases (Sample.E 8) Sample.typeinfo_c_names = Ok st4 ∧
    sctypeDict st2 !! "float" = Some Sample.float32 ∧
    sctypeDict st4 !! "float" = allTypes st3 !! "float64".
Proof.
  split; [by_evaluation|].
  destruct (loops_overwrite_in_order (Sample.E 8) Sample.typeinfo_c_names
              (Sample.tables_of (Sample.E 8) Sample.typeinfo_c_names))
    as (st1 & st2 & st3 & st4 & H1 & H2 & H3 & H4 & _ & Hreg & _ & _ & _
        & Hextra & _); [by_evaluation..|].
  exists st1, st2, st3, st4. split_and!; [done..| |].
  - apply (Hreg "float" (TypeInfo "f" Sample.float32)); by_evaluation.
  - apply (Hextra "float" "float64"). by_evaluation.
Defined.



(** Where C7 fails as first stated: the registry names the C type
    [long]; the registry loop makes that name a key of [allTypes]. *)
Lemma extra_alias_in_allTypes_counterexample :
  NoDup Sample.typeinfo_c_names.*1 ∧
  build_tables (Sample.E 16) Sample.typeinfo_c_names =
    Ok (Sample.tables_of (Sample.E 16) Sample.typeinfo_c_names) ∧
  "long" ∈ _extra_aliases.*1 ∧
  allTypes (Sample.tables_of (Sample.E 16) Sample.typeinfo_c_names)
    !! "long" = Some Sample.int_.
Proof. split_and!; by_evaluation. Qed.

Lemma extra_aliases_only_in_sctypeDict_witness :
  build_tables (Sample.E 16) Sample.typeinfo =
    Ok (Sample.tables_of (Sample.E 16) Sample.typeinfo) ∧
  is_Some (sctypeDict (Sample.tables_of (Sample.E 16) Sample.typeinfo)
             !! "long") ∧
  allTypes (Sample.tables_of (Sample.E 16) Sample.typeinfo) !! "long" = None.
Proof.
  split; [by_evaluation|].
  destruct (extra_aliases_only_in_sctypeDict (Sample.E 16) Sample.typeinfo
              (Sample.tables_of (Sample.E 16) Sample.typeinfo))
    as (st3 & st4 & _ & _ & _ & Hk); [by_evaluation|].
  destruct (Hk "long") as [Hs Ha]; [by_evaluation|].
  split; [done|]. apply Ha.
  intros v Hv. apply list_elem_of_fmap_2 with (f := fst) in Hv.
  revert Hv. by_evaluation.
Defined.

(** Where C10 fails as first stated: a registry entry named [integer]
    makes that name a key of [sctypeDict]. *)
Lemma abstract_name_in_sctypeDict_counterexample :
  NoDup Sample.typeinfo_integer.*1 ∧
  build_tables (Sample.E 16) Sample.typeinfo_integer =
    Ok (Sample.tables_of (Sample.E 16) Sample.typeinfo_integer) ∧
  "integer" ∈ _abstract_type_names ∧
  sctypeDict (Sample.tables_of (Sample.E 16) Sample.typeinfo_integer)
    !! "integer" = Some Sample.int_.
Proof. split_and!; by_evaluation. Qed.

Lemma abstract_names_only_in_allTypes_witness :
  build_tables (Sample.E 16) Sample.typeinfo =
    Ok (Sample.tables_of (Sample.E 16) Sample.typeinfo) ∧
  is_Some (allTypes (Sample.tables_of (Sample.E 16) Sample.typeinfo)
             !! "integer") ∧
  sctypeDict (Sample.tables_of (Sample.E 16) Sample.typeinfo)
    !! "integer" = None.
Proof.
  split; [by_evaluation|].
  destruct (abstract_names_only_in_allTypes (Sample.E 16) Sample.typeinfo
              (Sample.tables_of (Sample.E 16) Sample.typeinfo) "integer")
    as [Ha Hs]; [by_evaluation..|].
  split; [done|]. apply Hs.
  intros v Hv. apply list_elem_of_fmap_2 with (f := fst) in Hv.
  revert Hv. by_evaluation.
Defined.



Lemma sctypes_sorted_by_itemsize_witness :
  script (Sample.E 16) Sample.typeinfo (Sample.values_of Sample.typeinfo) =
    Ok (Sample.module_of (Sample.E 16) Sample.typeinfo) ∧
  ∃ G0 l0 l,
    classify (Sample.E 16) (Sample.values_of Sample.typeinfo) = Ok G0 ∧
    G0 !! "others" = Some l0 ∧
    sctypes (Sample.module_of (Sample.E 16) Sample.typeinfo) !! "others"
      = Some l ∧
    StronglySorted (key_le (dtype_itemsize (Sample.E 16))) l ∧
    l ≡ₚ l0 ∧
    ∀ w, filter (λ x, dtype_itemsize (Sample.E 16) x = w) l =
         filter (λ x, dtype_itemsize (Sample.E 16) x = w) l0.
Proof.
  split; [by_evaluation|].
  apply (sctypes_sorted_by_itemsize (Sample.E 16) Sample.typeinfo
           (Sample.values_of Sample.typeinfo)); by_evaluation.
Defined.

(** Where C9 fails as first stated: the registry entry [NPY_DATETIME]
    is of kind [M], and its name is a key of neither name table; and when
    the registry enters [timedelta64] a second time with an integer kind,
    the type of the entry of kind [m] is in the group list [int]. *)
Lemma time_kind_entry_not_key_counterexample :
  (NoDup Sample.typeinfo.*1 ∧
   script (Sample.E 16) Sample.typeinfo (Sample.values_of Sample.typeinfo) =
     Ok (Sample.module_of (Sample.E 16) Sample.typeinfo) ∧
   ("NPY_DATETIME", TypeInfo "M" Sample.datetime64) ∈ Sample.typeinfo ∧
   is_time_kind (TypeInfo "M" Sample.datetime64) = true ∧
   sctypeDict (names (Sample.module_of (Sample.E 16) Sample.typeinfo))
     !! "NPY_DATETIME" = None ∧
   allTypes (names (Sample.module_of (Sample.E 16) Sample.typeinfo))
     !! "NPY_DATETIME" = None) ∧
  (NoDup Sample.typeinfo_timedelta.*1 ∧
   script (Sample.E 16) Sample.typeinfo_timedelta
          (Sample.values_of Sample.typeinfo_timedelta) =
     Ok (Sample.module_of (Sample.E 16) Sample.typeinfo_timedelta) ∧
   ("timedelta64", TypeInfo "m" Sample.timedelta64)
     ∈ Sample.typeinfo_timedelta ∧
   is_time_kind (TypeInfo "m" Sample.timedelta64) = true ∧
   Sample.timedelta64 ∈
     group (sctypes
       (Sample.module_of (Sample.E 16) Sample.typeinfo_timedelta)) "int").
Proof. split_and!; by_evaluation. Qed.

Lemma time_kinds_in_name_tables_witness :
  script (Sample.E 16) Sample.typeinfo (Sample.values_of Sample.typeinfo) =
    Ok (Sample.module_of (Sample.E 16) Sample.typeinfo) ∧
  sctypeDict (names (Sample.module_of (Sample.E 16) Sample.typeinfo))
    !! "timedelta64" = Some Sample.timedelta64 ∧
  allTypes (names (Sample.module_of (Sample.E 16) Sample.typeinfo))
    !! "timedelta64" = Some Sample.timedelta64 ∧
  Sample.timedelta64 ∉
    group (sctypes (Sample.module_of (Sample.E 16) Sample.typeinfo)) "int".
Proof.
  split; [by_evaluation|].
  destruct (time_kinds_in_name_tables (Sample.E 16) Sample.typeinfo
              (Sample.values_of Sample.typeinfo)
              (Sample.module_of (Sample.E 16) Sample.typeinfo)
              "timedelta64" (TypeInfo "m" Sample.timedelta64))
    as (_ & _ & _ & Hall & Hsct & _ & Hgroup); [by_evaluation..|].
  split_and!.
  - apply Hsct. by_evaluation.
  - apply Hall. by_evaluation.
  - apply Hgroup.
    apply (proj1 (Forall_forall
      (λ v', type v' = Sample.timedelta64 → is_time_kind v' = true) _)).
    by_evaluation.
Defined.

(** ** Which runs complete, and what the others raise *)

Lemma bind_Raise {A B} (r : result A) (f : A → result B) (e : pyerr) :
  r ≫= f = Raise e → r = Raise e ∨ ∃ a, r = Ok a ∧ f a = Raise e.
Proof. destruct r as [a|e']; simpl; [eauto | intros [= ->]; by left]. Qed.

Lemma registry_types_inv typeinfo m k t :
  registry_types typeinfo m !! k = Some t →
  m !! k = Some t ∨
  ∃ v, (k, v) ∈ typeinfo ∧ startswith k "NPY_" = false ∧ t = type v.
Proof.
  induction typeinfo as [|[k' v'] l IH] using rev_ind; intros H.
  - by left.
  - rewrite registry_types_snoc in H. cbn [fst snd] in H.
    destruct (startswith k' "NPY_") eqn:Hk'.
    + destruct (IH H) as [?|(v & ? & ? & ?)]; [by left|].
      right. exists v. split; [|done]. apply elem_of_app. by left.
    + destruct (decide (k' = k)) as [->|Hne].
      * rewrite lookup_insert_eq in H. simplify_eq. right. exists v'.
        split; [|done]. apply elem_of_app. right. left.
      * rewrite lookup_insert_ne in H by done.
        destruct (IH H) as [?|(v & ? & ? & ?)]; [by left|].
        right. exists v. split; [|done]. apply elem_of_app. by left.
Qed.

Lemma elem_of_keys (typeinfo : list (string * type_info)) k :
  k ∈ typeinfo.*1 ↔ ∃ v, (k, v) ∈ typeinfo.
Proof.
  rewrite list_elem_of_fmap. split.
  - intros ([k' v] & -> & Hin). by exists v.
  - intros (v & Hin). by exists (k, v).
Qed.

Lemma required_name_plain n :
  n ∈ required_names →
  startswith n "NPY_" = false ∧ (n ∉ _abstract_type_names) ∧
  (n ∉ _aliases.*1).
Proof.
  intros Hn. cbn in Hn.
  repeat (apply elem_of_cons in Hn as [->|Hn];
    [split_and!; by apply (bool_decide_unpack _)|]).
  by apply not_elem_of_nil in Hn.
Qed.

(** A name that is no abstract type name is a key of [allTypes] after the
    registry loop only through a registry entry of that name. *)
Lemma allTypes_registry_origin E typeinfo st1 k :
  phase_abstract E = Ok st1 →
  k ∉ _abstract_type_names →
  is_Some (allTypes (registry_loop typeinfo st1) !! k) →
  k ∈ typeinfo.*1 ∧ startswith k "NPY_" = false.
Proof.
  intros H1 Hk [t Ht]. apply phase_abstract_spec in H1 as (_ & _ & _ & Ha1).
  rewrite registry_loop_tables in Ht. simpl in Ht.
  apply registry_types_inv in Ht as [Ht|(v & Hin & Hpub & _)].
  - by rewrite Ha1, decide_False in Ht.
  - split; [|done]. apply elem_of_keys. eauto.
Qed.

Lemma required_names_registered E typeinfo st :
  build_tables E typeinfo = Ok st →
  ∀ n, n ∈ required_names → n ∈ typeinfo.*1.
Proof.
  intros H n Hn.
  apply build_tables_phases in H
    as (st1 & st2 & st3 & st4 & H1 & _ & -> & _ & H23 & _ & H34 & H45).
  destruct (required_name_plain n Hn) as (_ & Hab & Hal).
  destruct (alias_loop_other _ _ _ H23) as [_ H3].
  destruct (extra_alias_loop_other _ _ _ H34) as (Hall4 & _ & _).
  destruct aliases_wf as [Hnd' Htg].
  apply (allTypes_registry_origin E typeinfo st1 n H1 Hab).
  destruct (H3 n Hal) as [<- _].
  unfold required_names in Hn.
  apply elem_of_app in Hn as [Hn|[Hn|Hn]%elem_of_app].
  - apply list_elem_of_fmap in Hn as ([k tgt] & -> & Hin).
    destruct (alias_loop_written _ _ _ H23 Hnd' Htg k tgt Hin)
      as (t & Ht & _).
    apply (alias_loop_mono _ _ _ _ H23). eauto.
  - apply list_elem_of_fmap in Hn as ([k tgt] & -> & Hin).
    destruct (extra_alias_loop_written _ _ _ H34 extra_aliases_wf k tgt Hin)
      as (t & Ht & _). eauto.
  - rewrite <- Hall4.
    destruct (extended_loop_spec _ _ _ H45) as (ld & cld & Hld & Hcld & _).
    cbn in Hn.
    repeat (apply elem_of_cons in Hn as [->|Hn]; [eauto|]).
    by apply not_elem_of_nil in Hn.
Qed.

(** X1. The module runs to its end exactly when [ma] has the ten
    abstract types and the registry has an entry for each of the thirteen
    names that the alias loops and the extended-precision loop look up. *)
Theorem script_completes_iff E typeinfo values :
  (∃ st, script E typeinfo values = Ok st) ↔
  (∀ k, k ∈ _abstract_type_names → is_Some (ma E k)) ∧
  (∀ n, n ∈ required_names → n ∈ typeinfo.*1).
Proof.
  split.
  - intros [st H]. destruct (script_parts _ _ _ _ H) as [HT _]. split.
    + pose proof (build_tables_phases _ _ _ HT)
        as (st1 & st2 & st3 & st4 & H1 & _).
      by apply phase_abstract_spec in H1 as (_ & _ & Hdef & _).
    + by eapply required_names_registered.
  - intros [Hma Hreg]. apply script_completes; [done|].
    intros n Hn. apply elem_of_keys. by apply Hreg.
Qed.

Lemma abstract_loop_raise E (l : list string) st e :
  for_each l (abstract_step E) st = Raise e →
  ∃ n, n ∈ l ∧ ma E n = None ∧ e = AttributeError n.
Proof.
  revert st. induction l as [|n l IH]; intros st H; simpl in H; [done|].
  apply bind_Raise in H as [H|(st1 & _ & H)].
  - unfold abstract_step, getattr in H. exists n.
    destruct (ma E n); simpl in H; simplify_eq. split; [left | done].
  - destruct (IH _ H) as (n' & Hn' & Hma & ->). exists n'.
    split; [by right | done].
Qed.

Lemma alias_loop_raise (al : list (string * string)) st e :
  for_each al alias_step st = Raise e →
  ∃ tgt, tgt ∈ al.*2 ∧ allTypes st !! tgt = None ∧ e = KeyError tgt.
Proof.
  revert st. induction al as [|[k tgt] al IH]; intros st H; simpl in H;
    [done|].
  apply bind_Raise in H as [H|(st1 & Hst1 & H)].
  - unfold alias_step, getitem in H. cbn [fst snd] in H. exists tgt.
    destruct (allTypes st !! tgt); simpl in H; simplify_eq.
    split; [left | done].
  - apply alias_step_Ok in Hst1 as (t & _ & ->).
    destruct (IH _ H) as (tgt' & Hin & Hnone & ->). exists tgt'.
    split; [by right|]. split; [|done]. simpl in Hnone.
    apply lookup_insert_None in Hnone. by destruct Hnone.
Qed.

Lemma extra_alias_loop_raise (al : list (string * string)) st e :
  for_each al extra_alias_step st = Raise e →
  ∃ tgt, tgt ∈ al.*2 ∧ allTypes st !! tgt = None ∧ e = KeyError tgt.
Proof.
  revert st. induction al as [|[k tgt] al IH]; intros st H; simpl in H;
    [done|].
  apply bind_Raise in H as [H|(st1 & Hst1 & H)].
  - unfold extra_alias_step, getitem in H. cbn [fst snd] in H. exists tgt.
    destruct (allTypes st !! tgt); simpl in H; simplify_eq.
    split; [left | done].
  - apply extra_alias_step_Ok in Hst1 as (t & _ & ->).
    destruct (IH _ H) as (tgt' & Hin & Hnone & ->). exists tgt'.
    split; [by right | done].
Qed.

Lemma extended_step_raise E c full st e :
  extended_step E (c, full) st = Raise e →
  allTypes st !! full = None ∧ e = KeyError full.
Proof.
  unfold extended_step, getitem. cbn [fst snd].
  destruct (allTypes st !! full); simpl; [|by intros [= <-]].
  by case_bool_decide.
Qed.

Lemma extended_loop_raise E st e :
  for_each extended_names (extended_step E) st = Raise e →
  ∃ n, n ∈ extended_names.*2 ∧ allTypes st !! n = None ∧ e = KeyError n.
Proof.
  unfold extended_names. cbn [for_each]. intros H.
  apply bind_Raise in H as [H|(st1 & Hst1 & H)].
  - apply extended_step_raise in H as [Hnone ->].
    exists "longdouble". split; [left | done].
  - apply bind_Raise in H as [H|(st2 & _ & H)]; [|done].
    apply extended_step_raise in H as [Hnone ->].
    exists "clongdouble". split; [right; left|]. split; [|done].
    destruct (allTypes st !! "clongdouble") eqn:Hc; [|done].
    destruct (extended_step_completes E false "longdouble" st)
      as (st1' & Hst1' & Hmono).
    { apply extended_step_Ok in Hst1 as (t & Ht & _). eauto. }
    rewrite Hst1 in Hst1'. simplify_eq.
    destruct (Hmono "clongdouble") as [t' Ht']; [eauto|]. congruence.
Qed.

(** X2. When the module does not run to its end, the exception is an
    [AttributeError] for an abstract type that [ma] lacks, or a
    [KeyError] for one of the thirteen looked-up names that the registry
    lacks; nothing else is raised. *)
Theorem script_raises_only E typeinfo values e :
  script E typeinfo values = Raise e →
  (∃ n, n ∈ _abstract_type_names ∧ ma E n = None ∧ e = AttributeError n) ∨
  (∃ n, n ∈ required_names ∧ (n ∉ typeinfo.*1) ∧ e = KeyError n).
Proof.
  intros H.
  destruct (phase_abstract E) as [st1|e1] eqn:H1.
  2:{ left. unfold script, build_tables, phase_extra_aliases, phase_aliases,
        phase_registry in H. rewrite H1 in H. simpl in H. simplify_eq.
      by apply abstract_loop_raise in H1. }
  assert (∀ n, n ∈ required_names →
            allTypes (registry_loop typeinfo st1) !! n = None →
            n ∉ typeinfo.*1) as Hmiss.
  { intros n Hn Hnone [v Hv]%elem_of_keys.
    destruct (required_name_plain n Hn) as (Hpub & _).
    rewrite registry_loop_tables in Hnone. simpl in Hnone.
    destruct (registry_types_defined typeinfo (allTypes st1) n v Hv Hpub)
      as [t Ht]. congruence. }
  right.
  unfold script, build_tables, phase_extra_aliases, phase_aliases,
    phase_registry in H. rewrite H1 in H. cbn [mbind result_bind] in H.
  destruct (for_each _aliases alias_step (registry_loop typeinfo st1))
    as [st3|e3] eqn:H3; cbn [mbind result_bind] in H.
  2:{ simplify_eq. apply alias_loop_raise in H3 as (n & Hn & Hnone & ->).
      assert (n ∈ required_names) as Hreq by (apply elem_of_app; by left).
      exists n. split_and!; [done| |done]. by apply Hmiss. }
  assert (∀ n, n ∈ required_names → allTypes st3 !! n = None →
            n ∉ typeinfo.*1) as Hmiss3.
  { intros n Hn Hnone. apply Hmiss; [done|].
    destruct (allTypes (registry_loop typeinfo st1) !! n) eqn:Hl; [|done].
    destruct (alias_loop_mono _ _ _ n H3) as [t Ht]; [eauto|]. congruence. }
  destruct (for_each _extra_aliases extra_alias_step st3)
    as [st4|e4] eqn:H4; cbn [mbind result_bind] in H.
  2:{ simplify_eq. apply extra_alias_loop_raise in H4 as (n & Hn & Hnone & ->).
      assert (n ∈ required_names) as Hreq.
      { apply elem_of_app. right. apply elem_of_app. by left. }
      exists n. split_and!; [done| |done]. by apply Hmiss3. }
  destruct (extra_alias_loop_other _ _ _ H4) as (Hall4 & _ & _).
  destruct (for_each extended_names (extended_step E) st4)
    as [st5|e5] eqn:H5; cbn [mbind result_bind] in H.
  2:{ simplify_eq. apply extended_loop_raise in H5 as (n & Hn & Hnone & ->).
      assert (n ∈ required_names) as Hreq.
      { apply elem_of_app. right. apply elem_of_app. by right. }
      exists n. split_and!; [done| |done]. apply Hmiss3; [done|].
      by rewrite <- Hall4. }
  exfalso.
  change (phase_abstract E = Ok st1) in H1.
  apply phase_abstract_spec in H1 as (_ & _ & Hdef & _).
  destruct (group_table_defined E Hdef)
    as (si & ui & fl & cf & ge & _ & _ & _ & _ & _ & Hgt).
  destruct (classify_loop_completes E _ values sctypes_init Hgt) as [G0 HG0].
  { intros g Hg. cbn in Hg.
    repeat (apply elem_of_cons in Hg as [->|Hg]; [by eexists|]).
    by apply not_elem_of_nil in Hg. }
  unfold build_sctypes, classify in H. rewrite HG0 in H. done.
Qed.

(** ** The keys of the name tables *)

Lemma pretty_N_char_digit (x : N) :
  pretty_N_char x ∈ String.list_ascii_of_string "0123456789".
Proof.
  unfold pretty_N_char.
  repeat case_match; by apply (bool_decide_unpack _).
Qed.

Lemma pretty_N_go_head (x : N) (s : string) :
  (0 < x)%N →
  ∃ c s', pretty_N_go x s = String c s' ∧
    c ∈ String.list_ascii_of_string "0123456789".
Proof.
  revert s. induction (N.lt_wf_0 x) as [x _ IH]. intros s Hx.
  rewrite pretty_N_go_step by done.
  destruct (decide (x `div` 10 = 0)%N) as [->|Hd].
  - rewrite pretty_N_go_0. eexists _, _. split; [done|].
    apply pretty_N_char_digit.
  - apply IH; [apply N.div_lt; lia | by apply N.neq_0_lt_0].
Qed.

Lemma pretty_N_head (x : N) :
  ∃ c s', pretty x = String c s' ∧
    c ∈ String.list_ascii_of_string "0123456789".
Proof.
  unfold pretty, pretty_N. case_decide as Hx.
  - eexists _, _. split; [done|]. by apply (bool_decide_unpack _).
  - apply pretty_N_go_head. lia.
Qed.

Lemma extended_name_not_abstract E c t :
  extended_prec_name E c t ∉ _abstract_type_names.
Proof.
  unfold extended_prec_name.
  destruct (pretty_N_head (dtype_itemsize E t * 8)) as (d & s & -> & Hd).
  intros Hin. unfold _abstract_type_names in Hin.
  repeat (apply elem_of_cons in Hin as [Hin|Hin];
    [destruct c; rewrite !append_cons in Hin; simplify_eq;
     by apply (bool_decide_pack _) in Hd |]).
  by apply not_elem_of_nil in Hin.
Qed.

Lemma alias_key_written (al : list (string * string)) st st' k :
  for_each al alias_step st = Ok st' →
  is_Some (sctypeDict st !! k) → is_Some (sctypeDict st' !! k).
Proof.
  revert st. induction al as [|[k0 t0] al IH]; intros st H Hk; simpl in H.
  - by simplify_eq.
  - inv_bind H. apply alias_step_Ok in Ha as (t & Ht & ->).
    apply (IH _ H). simpl.
    destruct (decide (k0 = k)) as [->|Hne].
    + rewrite lookup_insert_eq. eauto.
    + by rewrite lookup_insert_ne.
Qed.

Lemma extra_alias_key_written (al : list (string * string)) st st' k :
  for_each al extra_alias_step st = Ok st' →
  is_Some (sctypeDict st !! k) → is_Some (sctypeDict st' !! k).
Proof.
  revert st. induction al as [|[k0 t0] al IH]; intros st H Hk; simpl in H.
  - by simplify_eq.
  - inv_bind H. apply extra_alias_step_Ok in Ha as (t & Ht & ->).
    apply (IH _ H). simpl.
    destruct (decide (k0 = k)) as [->|Hne].
    + rewrite lookup_insert_eq. eauto.
    + by rewrite lookup_insert_ne.
Qed.

(** The registry loop binds a name alike in both tables, or in neither. *)
Lemma registry_types_agree typeinfo (m m' : gmap string pytype) k :
  registry_types typeinfo m !! k = registry_types typeinfo m' !! k ∨
  (registry_types typeinfo m !! k = m !! k ∧
   registry_types typeinfo m' !! k = m' !! k ∧
   ∀ v, (k, v) ∈ typeinfo → startswith k "NPY_" = true).
Proof.
  induction typeinfo as [|[k' v'] l IH] using rev_ind.
  - right. split_and!; [done..|]. intros v Hv. by apply not_elem_of_nil in Hv.
  - rewrite !registry_types_snoc. cbn [fst snd].
    destruct (startswith k' "NPY_") eqn:Hk'.
    + destruct IH as [IH|(IH1 & IH2 & IH3)]; [by left|]. right.
      split_and!; [done..|].
      intros v [Hv|Hv%list_elem_of_singleton]%elem_of_app;
        [by eapply IH3 | by simplify_eq].
    + destruct (decide (k' = k)) as [->|Hne].
      * left. by rewrite !lookup_insert_eq.
      * rewrite !lookup_insert_ne by done.
        destruct IH as [IH|(IH1 & IH2 & IH3)]; [by left|]. right.
        split_and!; [done..|].
        intros v [Hv|Hv%list_elem_of_singleton]%elem_of_app;
          [by eapply IH3 | by simplify_eq].
Qed.

(** X3. The keys of [allTypes] are exactly the ten abstract type names,
    the registry names without the [NPY_] prefix, the five names of
    [_aliases] and the two extended-precision names; the keys of
    [sctypeDict] are exactly those registry names, the names of
    [_aliases] and of [_extra_aliases], and the two extended-precision
    names. *)
Theorem name_table_keys E typeinfo st k :
  build_tables E typeinfo = Ok st →
  (is_Some (allTypes st !! k) ↔
     k ∈ _abstract_type_names ∨
     (k ∈ typeinfo.*1 ∧ startswith k "NPY_" = false) ∨
     k ∈ _aliases.*1 ∨
     ∃ (c : bool) t,
       allTypes st !! (if c then "clongdouble" else "longdouble") = Some t ∧
       k = extended_prec_name E c t) ∧
  (is_Some (sctypeDict st !! k) ↔
     (k ∈ typeinfo.*1 ∧ startswith k "NPY_" = false) ∨
     k ∈ _aliases.*1 ∨
     k ∈ _extra_aliases.*1 ∨
     ∃ (c : bool) t,
       allTypes st !! (if c then "clongdouble" else "longdouble") = Some t ∧
       k = extended_prec_name E c t).
Proof.
  intros H.
  apply build_tables_phases in H
    as (st1 & st2 & st3 & st4 & H1 & _ & -> & _ & H23 & Hp4 & H34 & H45).
  pose proof (phase_abstract_spec _ _ H1) as (Hs1 & _ & Hdef & Ha1).
  destruct (alias_loop_other _ _ _ H23) as [_ H3].
  destruct (extra_alias_loop_other _ _ _ H34) as (Hall4 & _ & Hsct4).
  destruct aliases_wf as [Hnd' Htg].
  destruct (extended_loop_spec _ _ _ H45)
    as (ld & cld & Hld & Hcld & _ & Ho & Hn).
  assert (∀ c : bool,
    allTypes st !! (if c then "clongdouble" else "longdouble")
      = Some (if c then cld else ld)) as Hfull.
  { intros c. destruct c.
    - destruct (extended_loop_keeps E st4 st "clongdouble" H45) as [-> _];
        eauto.
    - destruct (extended_loop_keeps E st4 st "longdouble" H45) as [-> _];
        eauto. }
  assert (∀ (c : bool) t,
            allTypes st !! (if c then "clongdouble" else "longdouble")
                   = Some t →
            extended_prec_name E c t =
            extended_prec_name E c (if c then cld else ld)) as Hname.
  { intros c t Ht. rewrite Hfull in Ht. by simplify_eq. }
  assert (∀ c : bool,
    is_Some (allTypes st
               !! extended_prec_name E c (if c then cld else ld)) ∧
    is_Some (sctypeDict st
               !! extended_prec_name E c (if c then cld else ld))) as Hext.
  { intros c. destruct (Hn c) as [Hnew Hold].
    destruct (allTypes st4 !! extended_prec_name E c (if c then cld else ld))
      as [t'|] eqn:Hl.
    - destruct Hold as [-> ->]; [eauto|]. split; [eauto|].
      assert (is_Some (allTypes st3 !! extended_prec_name E c
                (if c then cld else ld))) as Hl3 by (rewrite <- Hall4; eauto).
      apply (extra_alias_key_written _ _ _ _ H34).
      destruct (decide (extended_prec_name E c (if c then cld else ld)
                          ∈ _aliases.*1)) as [Hal|Hal].
      { apply list_elem_of_fmap in Hal as ([k' tgt] & Heq & Hal).
        destruct (alias_loop_written _ _ _ H23 Hnd' Htg _ _ Hal)
          as (t & _ & _ & Ht). rewrite Heq. eauto. }
      destruct (H3 _ Hal) as [Hall3 ->]. rewrite Hall3 in Hl3.
      rewrite registry_loop_tables in *. simpl in *. rewrite Hs1.
      destruct (registry_types_agree typeinfo ∅ (allTypes st1)
                  (extended_prec_name E c (if c then cld else ld)))
        as [->|(_ & Hun & _)]; [done|].
      rewrite Hun, Ha1 in Hl3.
      rewrite decide_False in Hl3 by apply extended_name_not_abstract.
      by destruct Hl3.
    - destruct Hnew as [-> ->]; eauto. }
  assert (k ∈ typeinfo.*1 ∧ startswith k "NPY_" = false →
          is_Some (allTypes (registry_loop typeinfo st1) !! k) ∧
          is_Some (sctypeDict (registry_loop typeinfo st1) !! k)) as Hreg.
  { intros [[v Hv]%elem_of_keys Hpub]. rewrite registry_loop_tables. simpl.
    split; by eapply registry_types_defined. }
  assert (is_Some (allTypes st4 !! k) → is_Some (allTypes st !! k) ∧
          (is_Some (sctypeDict st4 !! k) → is_Some (sctypeDict st !! k)))
    as Hlast.
  { intros Hk. by destruct (extended_loop_keeps _ _ _ k H45 Hk) as [-> ->]. }
  split; split.
  - intros Hk.
    destruct (decide (k = extended_prec_name E false ld)) as [->|Hf].
    { do 3 right. exists false, ld. split; [apply (Hfull false) | done]. }
    destruct (decide (k = extended_prec_name E true cld)) as [->|Hc].
    { do 3 right. exists true, cld. split; [apply (Hfull true) | done]. }
    destruct (Ho k Hf Hc) as [Hall _]. rewrite Hall, Hall4 in Hk.
    destruct (decide (k ∈ _aliases.*1)) as [Hal|Hal]; [by right; right; left|].
    destruct (H3 k Hal) as [Hall3 _]. rewrite Hall3 in Hk.
    destruct (decide (k ∈ _abstract_type_names)) as [Hab|Hab]; [by left|].
    right. left. by eapply allTypes_registry_origin.
  - intros [Hab|[Hpub|[Hal|(c & t & Ht & ->)]]].
    + apply Hlast. rewrite Hall4. apply (alias_loop_mono _ _ _ _ H23).
      rewrite registry_loop_tables. simpl. apply registry_types_mono.
      rewrite Ha1, decide_True by done. by apply Hdef.
    + apply Hlast. rewrite Hall4. apply (alias_loop_mono _ _ _ _ H23).
      by apply Hreg.
    + apply Hlast. rewrite Hall4.
      apply list_elem_of_fmap in Hal as ([k' tgt] & -> & Hal).
      destruct (alias_loop_written _ _ _ H23 Hnd' Htg _ _ Hal)
        as (t & _ & Ht & _). eauto.
    + rewrite (Hname c t Ht). apply Hext.
  - intros Hk.
    destruct (decide (k = extended_prec_name E false ld)) as [->|Hf].
    { do 3 right. exists false, ld. split; [apply (Hfull false) | done]. }
    destruct (decide (k = extended_prec_name E true cld)) as [->|Hc].
    { do 3 right. exists true, cld. split; [apply (Hfull true) | done]. }
    destruct (Ho k Hf Hc) as [_ Hsct]. rewrite Hsct in Hk.
    destruct (decide (k ∈ _extra_aliases.*1)) as [Hex|Hex];
      [by right; right; left|].
    rewrite (Hsct4 k Hex) in Hk.
    destruct (decide (k ∈ _aliases.*1)) as [Hal|Hal]; [by right; left|].
    destruct (H3 k Hal) as [_ Hsct3]. rewrite Hsct3 in Hk.
    left. destruct Hk as [t Ht].
    rewrite registry_loop_tables in Ht. simpl in Ht. rewrite Hs1 in Ht.
    apply registry_types_inv in Ht as [Ht|(v & Hin & Hpub & _)].
    + by rewrite lookup_empty in Ht.
    + split; [|done]. apply elem_of_keys. eauto.
  - intros [Hpub|[Hal|[Hex|(c & t & Ht & ->)]]].
    + destruct (Hreg Hpub) as [Hall2 Hsct2]. apply Hlast.
      * rewrite Hall4. by apply (alias_loop_mono _ _ _ _ H23).
      * apply (extra_alias_key_written _ _ _ _ H34).
        by apply (alias_key_written _ _ _ _ H23).
    + apply list_elem_of_fmap in Hal as ([k' tgt] & -> & Hal).
      destruct (alias_loop_written _ _ _ H23 Hnd' Htg _ _ Hal)
        as (t & _ & Hall3 & Hsct3). apply Hlast.
      * rewrite Hall4. eauto.
      * apply (extra_alias_key_written _ _ _ _ H34). eauto.
    + destruct (extended_loop_keeps_extra _ _ _ k H45 Hex) as [_ ->].
      apply list_elem_of_fmap in Hex as ([k' tgt] & -> & Hex).
      destruct (extra_alias_loop_written _ _ _ H34 extra_aliases_wf _ _ Hex)
        as (t & _ & Ht). eauto.
    + rewrite (Hname c t Ht). apply Hext.
Qed.

(** ** How the two name tables relate *)

(** The tables as the loop over [_aliases] leaves them: whatever
    [sctypeDict] binds, [allTypes] binds alike; whatever [allTypes]
    binds, [sctypeDict] binds alike, but for an abstract type name that
    the registry does not have. *)
Lemma tables_agree_after_aliases E typeinfo st3 k t :
  phase_aliases E typeinfo = Ok st3 →
  (sctypeDict st3 !! k = Some t → allTypes st3 !! k = Some t) ∧
  (allTypes st3 !! k = Some t →
     sctypeDict st3 !! k = Some t ∨
     (k ∈ _abstract_type_names ∧ (k ∉ typeinfo.*1) ∧ ma E k = Some t ∧
      sctypeDict st3 !! k = None)).
Proof.
  intros H3. unfold phase_aliases in H3.
  apply bind_Ok in H3 as (st2 & H2 & H23).
  unfold phase_registry in H2. apply bind_Ok in H2 as (st1 & H1 & H12).
  simplify_eq.
  pose proof (phase_abstract_spec _ _ H1) as (Hs1 & _ & _ & Ha1).
  destruct (alias_loop_other _ _ _ H23) as [_ H3].
  destruct aliases_wf as [Hnd' Htg].
  split.
  - apply (alias_loop_inv _ _ _ H23).
    rewrite registry_loop_tables. simpl. rewrite Hs1.
    apply registry_types_same_key. intros k' t'. by rewrite lookup_empty.
  - intros Hk.
    destruct (decide (k ∈ _aliases.*1)) as [Hal|Hal].
    { left. apply list_elem_of_fmap in Hal as ([k' tgt] & -> & Hal).
      destruct (alias_loop_written _ _ _ H23 Hnd' Htg _ _ Hal)
        as (t' & _ & Hall & Hsct). cbn [fst] in *. congruence. }
    destruct (H3 k Hal) as [Hall3 Hsct3]. rewrite Hall3 in Hk.
    rewrite Hsct3. rewrite registry_loop_tables in *. simpl in *.
    rewrite Hs1.
    destruct (registry_types_agree typeinfo ∅ (allTypes st1) k)
      as [->|(-> & Hun & Hpre)]; [by left|].
    right. rewrite Hun, Ha1 in Hk. case_decide as Hab; [|done].
    split_and!; [done| |done|apply lookup_empty].
    intros [v Hv]%elem_of_keys.
    specialize (Hpre v Hv).
    by rewrite (abstract_name_not_reserved k Hab) in Hpre.
Qed.

(** X4. In the finished tables a name that is not one of the eleven
    extra aliases is bound by [sctypeDict] only to the type [allTypes]
    binds it to; and [allTypes] binds such a name to the type
    [sctypeDict] binds it to, the one exception being an abstract type
    name that the registry does not have, which [sctypeDict] lacks. *)
Theorem tables_agree E typeinfo st k t :
  build_tables E typeinfo = Ok st →
  k ∉ _extra_aliases.*1 →
  (sctypeDict st !! k = Some t → allTypes st !! k = Some t) ∧
  (allTypes st !! k = Some t →
     sctypeDict st !! k = Some t ∨
     (k ∈ _abstract_type_names ∧ (k ∉ typeinfo.*1) ∧ ma E k = Some t ∧
      sctypeDict st !! k = None)).
Proof.
  intros H Hex.
  apply build_tables_phases in H
    as (st1 & st2 & st3 & st4 & _ & _ & -> & Hp3 & _ & _ & H34 & H45).
  destruct (extra_alias_loop_other _ _ _ H34) as (Hall4 & _ & Hsct4).
  destruct (extended_loop_spec _ _ _ H45)
    as (ld & cld & _ & _ & _ & Ho & Hn).
  destruct (tables_agree_after_aliases E typeinfo st3 k t Hp3) as [Hsa Has].
  rewrite <- Hall4, <- (Hsct4 k Hex) in Hsa, Has.
  assert (∀ c : bool, k = extended_prec_name E c (if c then cld else ld) →
    (sctypeDict st !! k = Some t → allTypes st !! k = Some t) ∧
    (allTypes st !! k = Some t →
       sctypeDict st !! k = Some t ∨
       (k ∈ _abstract_type_names ∧ (k ∉ typeinfo.*1) ∧ ma E k = Some t ∧
        sctypeDict st !! k = None))) as Hext.
  { intros c Hk. destruct (Hn c) as [Hnew Hold]. rewrite <- Hk in Hnew, Hold.
    destruct (allTypes st4 !! k) as [t'|] eqn:Hl.
    - by destruct Hold as [-> ->]; [eauto|].
    - destruct Hnew as [-> ->]; [done|]. split; [done | by left]. }
  destruct (decide (k = extended_prec_name E false ld)) as [Hf|Hf].
  { by apply (Hext false). }
  destruct (decide (k = extended_prec_name E true cld)) as [Hc|Hc].
  { by apply (Hext true). }
  by destruct (Ho k Hf Hc) as [-> ->].
Qed.

Lemma alias_target_plain k tgt :
  (k, tgt) ∈ _aliases ++ _extra_aliases →
  (tgt ∉ _abstract_type_names) ∧ (tgt ∉ _aliases.*1) ∧
  (tgt ∉ _extra_aliases.*1).
Proof.
  intros Hin. cbn in Hin.
  repeat (apply elem_of_cons in Hin as [Hin|Hin];
    [simplify_eq; split_and!; by apply (bool_decide_unpack _)|]).
  by apply not_elem_of_nil in Hin.
Qed.

(** X5. In the finished tables every alias resolves like its target:
    for a pair of [_aliases] both tables bind the alias and the target to
    one type; for a pair of [_extra_aliases] [sctypeDict] binds the alias
    to the type that both tables bind the target to. *)
Theorem aliases_resolve_like_targets E typeinfo st :
  build_tables E typeinfo = Ok st →
  (∀ k tgt, (k, tgt) ∈ _aliases →
     ∃ t, sctypeDict st !! k = Some t ∧ sctypeDict st !! tgt = Some t ∧
          allTypes st !! k = Some t ∧ allTypes st !! tgt = Some t) ∧
  (∀ k tgt, (k, tgt) ∈ _extra_aliases →
     ∃ t, sctypeDict st !! k = Some t ∧ sctypeDict st !! tgt = Some t ∧
          allTypes st !! tgt = Some t).
Proof.
  intros H.
  pose proof (build_tables_phases _ _ _ H)
    as (st1 & st2 & st3 & st4 & _ & _ & -> & Hp3 & H23 & _ & H34 & H45).
  destruct (extra_alias_loop_other _ _ _ H34) as (Hall4 & _ & Hsct4).
  destruct aliases_wf as [Hnd' Htg].
  assert (∀ k tgt t, (k, tgt) ∈ _aliases ++ _extra_aliases →
            allTypes st3 !! tgt = Some t →
            sctypeDict st !! tgt = Some t ∧ allTypes st !! tgt = Some t)
    as Htarget.
  { intros k tgt t Hin Ht.
    destruct (alias_target_plain k tgt Hin) as (Hab & _ & Hex).
    destruct (extended_loop_keeps _ _ _ tgt H45) as [-> ->];
      [rewrite Hall4; eauto|].
    rewrite Hall4, (Hsct4 tgt Hex). split; [|done].
    destruct (tables_agree_after_aliases E typeinfo st3 tgt t Hp3)
      as [_ Has].
    by destruct (Has Ht) as [?|(? & _)]. }
  split.
  - intros k tgt Hin.
    destruct (alias_loop_written _ _ _ H23 Hnd' Htg k tgt Hin)
      as (t & Ht2 & Hall3 & Hsct3).
    assert (allTypes st3 !! tgt = Some t) as Ht3.
    { destruct (alias_target_plain k tgt) as (_ & Hal & _).
      { apply elem_of_app. by left. }
      destruct (alias_loop_other _ _ _ H23) as [_ H3].
      by destruct (H3 tgt Hal) as [-> _]. }
    destruct (Htarget k tgt t) as [Hst Hat]; [apply elem_of_app; by left|done|].
    exists t.
    assert (k ∉ _extra_aliases.*1) as Hex.
    { cbn in Hin.
      repeat (apply elem_of_cons in Hin as [Hin|Hin];
        [simplify_eq; by apply (bool_decide_unpack _)|]).
      by apply not_elem_of_nil in Hin. }
    destruct (extended_loop_keeps _ _ _ k H45) as [-> ->];
      [rewrite Hall4; eauto|].
    by rewrite Hall4, (Hsct4 k Hex).
  - intros k tgt Hin.
    destruct (extra_alias_loop_written _ _ _ H34 extra_aliases_wf k tgt Hin)
      as (t & Ht3 & Hsct).
    destruct (Htarget k tgt t) as [Hst Hat];
      [apply elem_of_app; by right|done|].
    exists t. split_and!; [|done..].
    destruct (extended_loop_keeps_extra _ _ _ k H45) as [_ ->]; [|done].
    apply list_elem_of_fmap. by exists (k, tgt).
Qed.

(** X6. An abstract type name that the registry does not have is bound
    by [allTypes] to the attribute of that name of [ma]. *)
Theorem abstract_names_resolve E typeinfo st k :
  build_tables E typeinfo = Ok st →
  k ∈ _abstract_type_names →
  k ∉ typeinfo.*1 →
  allTypes st !! k = ma E k ∧ is_Some (ma E k).
Proof.
  intros H Hk Hreg.
  apply build_tables_phases in H
    as (st1 & st2 & st3 & st4 & H1 & _ & -> & _ & H23 & _ & H34 & H45).
  apply phase_abstract_spec in H1 as (_ & _ & Hdef & Ha1).
  destruct (alias_loop_other _ _ _ H23) as [_ H3].
  destruct (extra_alias_loop_other _ _ _ H34) as (Hall4 & _ & _).
  assert (k ∉ _aliases.*1) as Hal.
  { unfold _abstract_type_names in Hk.
    repeat (apply elem_of_cons in Hk as [->|Hk];
      [by apply (bool_decide_unpack _)|]).
    by apply not_elem_of_nil in Hk. }
  assert (allTypes st4 !! k = ma E k) as Hk4.
  { rewrite Hall4. destruct (H3 k Hal) as [-> _].
    rewrite registry_loop_tables. simpl.
    rewrite registry_types_other, Ha1; [by rewrite decide_True|].
    intros v Hv. destruct Hreg. apply elem_of_keys. eauto. }
  split; [|by apply Hdef].
  destruct (extended_loop_keeps _ _ _ k H45) as [-> _]; [|done].
  rewrite Hk4. by apply Hdef.
Qed.

Lemma registry_c_names_inv typeinfo (m : gmap string type_info) j v :
  registry_c_names typeinfo m !! j = Some v →
  m !! j = Some v ∨
  ∃ k, (k, v) ∈ typeinfo ∧ startswith k "NPY_" = true ∧ j = str_from 4 k.
Proof.
  induction typeinfo as [|[k' v'] l IH] using rev_ind; intros H.
  - by left.
  - rewrite registry_c_names_snoc in H. cbn [fst snd] in H.
    destruct (startswith k' "NPY_") eqn:Hk'.
    + destruct (decide (str_from 4 k' = j)) as [<-|Hne].
      * rewrite lookup_insert_eq in H. simplify_eq. right. exists k'.
        split; [|done]. apply elem_of_app. right. left.
      * rewrite lookup_insert_ne in H by done.
        destruct (IH H) as [?|(k & ? & ? & ?)]; [by left|].
        right. exists k. split; [|done]. apply elem_of_app. by left.
    + destruct (IH H) as [?|(k & ? & ? & ?)]; [by left|].
      right. exists k. split; [|done]. apply elem_of_app. by left.
Qed.

Lemma prefix_append (p s : string) : String.prefix p (p +:+ s) = true.
Proof.
  induction p as [|a p IH]; [by destruct s|].
  rewrite append_cons. cbn [String.prefix].
  by destruct (Ascii.ascii_dec a a).
Qed.

Lemma str_from_append (p s : string) :
  str_from (String.length p) (p +:+ s) = s.
Proof. induction p as [|a p IH]; [done|]. by rewrite append_cons. Qed.

(** X7. [c_names_dict] holds exactly the registry entries whose name
    starts with [NPY_], each under its name without the prefix: the key
    [j] is bound to [v] exactly when the registry entry named [NPY_]
    followed by [j] has the value [v]. *)
Theorem c_names_dict_exactly_reserved E typeinfo st j v :
  NoDup typeinfo.*1 →
  build_tables E typeinfo = Ok st →
  c_names_dict st !! j = Some v ↔ ("NPY_" +:+ j, v) ∈ typeinfo.
Proof.
  intros Hnd H.
  apply build_tables_phases in H
    as (st1 & st2 & st3 & st4 & H1 & _ & -> & _ & H23 & _ & H34 & H45).
  apply phase_abstract_spec in H1 as (_ & Hc1 & _ & _).
  destruct (alias_loop_other _ _ _ H23) as [Hc3 _].
  destruct (extra_alias_loop_other _ _ _ H34) as (_ & Hc4 & _).
  destruct (extended_loop_spec _ _ _ H45) as (ld & cld & _ & _ & Hc5 & _).
  rewrite Hc5, Hc4, Hc3, registry_loop_tables. simpl. rewrite Hc1. split.
  - intros Hj.
    apply registry_c_names_inv in Hj as [Hj|(k & Hin & Hk & ->)].
    + by rewrite lookup_empty in Hj.
    + by rewrite <- (startswith_strip k Hk).
  - intros Hin.
    pose proof (registry_c_names_reserved typeinfo ∅ _ v Hnd Hin
                  (prefix_append "NPY_" j)) as Hr.
    pose proof (str_from_append "NPY_" j) as Hj.
    cbn [String.length] in Hj. by rewrite Hj in Hr.
Qed.

(** X11. A registry name that does not carry the [NPY_] prefix and is
    not one of the five names of [_aliases] is bound by [allTypes] to
    the concrete type the registry gives it, also when it is the name of
    an abstract type or of an extra alias. *)
Theorem allTypes_registry_names E typeinfo st k v :
  NoDup typeinfo.*1 →
  build_tables E typeinfo = Ok st →
  (k, v) ∈ typeinfo →
  startswith k "NPY_" = false →
  k ∉ _aliases.*1 →
  allTypes st !! k = Some (type v).
Proof.
  intros Hnd H Hin Hk Hal.
  apply build_tables_phases in H
    as (st1 & st2 & st3 & st4 & _ & _ & -> & _ & H23 & _ & H34 & H45).
  destruct (alias_loop_other _ _ _ H23) as [_ H3].
  destruct (H3 k Hal) as [Hall3 _].
  destruct (extra_alias_loop_other _ _ _ H34) as (Hall4 & _ & _).
  rewrite registry_loop_tables in Hall3. simpl in Hall3.
  rewrite (registry_types_public _ _ k v) in Hall3 by done.
  destruct (extended_loop_keeps _ _ _ k H45) as [-> _].
  - rewrite Hall4, Hall3. eauto.
  - by rewrite Hall4, Hall3.
Qed.

(** ** The group lists *)

Lemma group_of_cases E si ui fl cf ge v g :
  group_of E [("int", si); ("uint", ui); ("float", fl); ("complex", cf);
              ("others", ge)] v = Some g ↔
  is_time_kind v = false ∧
  ((g = "int" ∧ issubclass E (type v) si = true) ∨
   (g = "uint" ∧ issubclass E (type v) si = false ∧
    issubclass E (type v) ui = true) ∨
   (g = "float" ∧ issubclass E (type v) si = false ∧
    issubclass E (type v) ui = false ∧ issubclass E (type v) fl = true) ∨
   (g = "complex" ∧ issubclass E (type v) si = false ∧
    issubclass E (type v) ui = false ∧ issubclass E (type v) fl = false ∧
    issubclass E (type v) cf = true) ∨
   (g = "others" ∧ issubclass E (type v) si = false ∧
    issubclass E (type v) ui = false ∧ issubclass E (type v) fl = false ∧
    issubclass E (type v) cf = false ∧ issubclass E (type v) ge = true)).
Proof.
  unfold group_of. destruct (is_time_kind v); [intuition congruence|]. simpl.
  destruct (issubclass E (type v) si); [intuition congruence|].
  destruct (issubclass E (type v) ui); [intuition congruence|].
  destruct (issubclass E (type v) fl); [intuition congruence|].
  destruct (issubclass E (type v) cf); [intuition congruence|].
  destruct (issubclass E (type v) ge); intuition congruence.
Qed.

(** X8. [sctypes] has the five group names as its keys and no other.
    A type is in a group list exactly when some visited value that is not
    of kind [M] or [m] carries it and the group is the first, in the
    order int, uint, float, complex, others, whose abstract type it
    derives from: a type deriving from several is only in the earliest
    of their lists. *)
Theorem sctypes_first_match E typeinfo values st :
  script E typeinfo values = Ok st →
  (∀ g, is_Some (sctypes st !! g) ↔ g ∈ group_names) ∧
  ∃ si ui fl cf ge,
    ma E "signedinteger" = Some si ∧ ma E "unsignedinteger" = Some ui ∧
    ma E "floating" = Some fl ∧ ma E "complexfloating" = Some cf ∧
    ma E "generic" = Some ge ∧
    ∀ g t, t ∈ group (sctypes st) g ↔
      ∃ v, v ∈ values ∧ is_time_kind v = false ∧ type v = t ∧
        ((g = "int" ∧ issubclass E t si = true) ∨
         (g = "uint" ∧ issubclass E t si = false ∧
          issubclass E t ui = true) ∨
         (g = "float" ∧ issubclass E t si = false ∧
          issubclass E t ui = false ∧ issubclass E t fl = true) ∨
         (g = "complex" ∧ issubclass E t si = false ∧
          issubclass E t ui = false ∧ issubclass E t fl = false ∧
          issubclass E t cf = true) ∨
         (g = "others" ∧ issubclass E t si = false ∧
          issubclass E t ui = false ∧ issubclass E t fl = false ∧
          issubclass E t cf = false ∧ issubclass E t ge = true)).
Proof.
  intros H.
  destruct (script_parts _ _ _ _ H) as (_ & si & ui & fl & cf & ge & Hsi
    & Hui & Hfl & Hcf & Hge & Hgt & G0 & _ & Hin & Hout & Hst).
  cbv zeta in Hgt, Hin. split.
  - intros g. rewrite Hst, lookup_fmap. split.
    + intros Hg. destruct (decide (g ∈ group_names)) as [|Hno]; [done|].
      rewrite (Hout g Hno) in Hg. by destruct Hg.
    + intros Hg. rewrite (Hin g Hg). simpl. eauto.
  - exists si, ui, fl, cf, ge. split_and!; [done..|]. intros g t.
    rewrite (elem_of_group _ _ _ _ _ g t H Hgt). split.
    + intros (v & Hv & Hg & <-). apply group_of_cases in Hg as [Htime Hg].
      by exists v.
    + intros (v & Hv & Htime & <- & Hg). exists v.
      split_and!; [done| |done]. by apply group_of_cases.
Qed.

Lemma members_Permutation E groups g values values' :
  values ≡ₚ values' → members E groups g values ≡ₚ members E groups g values'.
Proof. intros Hperm. unfold members. by rewrite Hperm. Qed.

(** X9. The order in which the set of registry values is visited does
    not change the name tables, and changes a group list at most by
    reordering it; a group list whose types all differ in width is the
    same for every order. *)
Theorem set_order_reorders_equal_widths_only E typeinfo values values' st :
  script E typeinfo values = Ok st →
  values ≡ₚ values' →
  ∃ st', script E typeinfo values' = Ok st' ∧
    names st' = names st ∧
    ∀ g, group (sctypes st') g ≡ₚ group (sctypes st) g ∧
      ((∀ x y, x ∈ group (sctypes st) g → y ∈ group (sctypes st) g →
          dtype_itemsize E x = dtype_itemsize E y → x = y) →
       sctypes st' !! g = sctypes st !! g).
Proof.
  intros H Hperm.
  pose proof (script_parts _ _ _ _ H) as (HT & si & ui & fl & cf & ge & _ & _
    & _ & _ & _ & Hgt & G0 & _ & Hin & Hout & Hst).
  cbv zeta in Hgt, Hin.
  destruct (script_completes E typeinfo values') as [st' H'].
  { pose proof (build_tables_phases _ _ _ HT)
      as (st1 & st2 & st3 & st4 & H1 & _).
    by apply phase_abstract_spec in H1 as (_ & _ & Hdef & _). }
  { intros n Hn. apply elem_of_keys.
    by apply (required_names_registered E typeinfo (names st)). }
  pose proof (script_parts _ _ _ _ H') as (HT' & si' & ui' & fl' & cf' & ge'
    & _ & _ & _ & _ & _ & Hgt' & G0' & _ & Hin' & Hout' & Hst').
  cbv zeta in Hgt', Hin'. rewrite Hgt in Hgt'. simplify_eq.
  exists st'. split_and!; [done|congruence|]. intros g.
  assert (group (sctypes st') g ≡ₚ group (sctypes st) g) as Hg.
  { rewrite (group_members _ _ _ _ _ g H Hgt),
      (group_members _ _ _ _ _ g H' Hgt).
    symmetry. by apply members_Permutation. }
  split; [done|]. intros Hwidth.
  rewrite Hst, Hst', !lookup_fmap.
  destruct (decide (g ∈ group_names)) as [Hyes|Hno].
  2:{ by rewrite (Hout g Hno), (Hout' g Hno). }
  rewrite (Hin g Hyes), (Hin' g Hyes). simpl. f_equal.
  unfold group in Hg, Hwidth.
  rewrite Hst, lookup_fmap, (Hin g Hyes) in Hg, Hwidth.
  rewrite Hst', lookup_fmap, (Hin' g Hyes) in Hg. simpl in Hg, Hwidth.
  symmetry.
  apply (StronglySorted_unique_strong (key_le (dtype_itemsize E))).
  - intros x y Hx Hy Hxy Hyx. rewrite Hg in Hy. apply Hwidth; [done..|].
    unfold key_le in *. lia.
  - apply sort_by_sorted.
  - apply sort_by_sorted.
  - by symmetry.
Qed.

(** ** The order of the registry *)

Lemma registry_c_names_other typeinfo (m : gmap string type_info) j :
  (∀ k v, (k, v) ∈ typeinfo → startswith k "NPY_" = true →
          str_from 4 k ≠ j) →
  registry_c_names typeinfo m !! j = m !! j.
Proof.
  induction typeinfo as [|[k' v'] l IH] using rev_ind; intros H; [done|].
  rewrite registry_c_names_snoc. cbn [fst snd].
  assert (registry_c_names l m !! j = m !! j) as Hl.
  { apply IH. intros k v Hv. apply (H k v). apply elem_of_app. by left. }
  destruct (startswith k' "NPY_") eqn:Hk'; [|done].
  rewrite lookup_insert_ne; [done|].
  apply (H k' v'); [|done]. apply elem_of_app. right. left.
Qed.

Lemma registry_types_perm typeinfo typeinfo' (m : gmap string pytype) :
  NoDup typeinfo.*1 → typeinfo ≡ₚ typeinfo' →
  registry_types typeinfo' m = registry_types typeinfo m.
Proof.
  intros Hnd Hperm.
  assert (NoDup typeinfo'.*1) as Hnd' by (by rewrite <- Hperm).
  apply map_eq. intros k.
  destruct (startswith k "NPY_") eqn:Hk.
  { by rewrite !registry_types_other. }
  destruct (decide (k ∈ typeinfo.*1)) as [[v Hv]%elem_of_keys|Hno].
  - rewrite (registry_types_public typeinfo m k v) by done.
    apply registry_types_public; [done| |done]. by rewrite <- Hperm.
  - rewrite !registry_types_other; [done|..]; intros v Hv; destruct Hno;
      apply elem_of_keys; exists v; [done | by rewrite Hperm].
Qed.

Lemma registry_c_names_perm typeinfo typeinfo'
  (m : gmap string type_info) :
  NoDup typeinfo.*1 → typeinfo ≡ₚ typeinfo' →
  registry_c_names typeinfo' m = registry_c_names typeinfo m.
Proof.
  intros Hnd Hperm.
  assert (NoDup typeinfo'.*1) as Hnd' by (by rewrite <- Hperm).
  apply map_eq. intros j.
  destruct (decide ("NPY_" +:+ j ∈ typeinfo.*1)) as [[v Hv]%elem_of_keys|Hno].
  - pose proof (prefix_append "NPY_" j) as Hk.
    pose proof (str_from_append "NPY_" j) as Hj. cbn [String.length] in Hj.
    assert (∀ ti : list (string * type_info),
              NoDup ti.*1 → ("NPY_" +:+ j, v) ∈ ti →
              registry_c_names ti m !! j = Some v) as Hget.
    { intros ti Hti Hin.
      pose proof (registry_c_names_reserved ti m _ v Hti Hin Hk) as Hr.
      by rewrite Hj in Hr. }
    rewrite !Hget; [done..|]. by rewrite <- Hperm.
  - rewrite !registry_c_names_other; [done|..]; intros k v Hv Hk Heq;
      destruct Hno; apply elem_of_keys; exists v;
      rewrite <- Heq, <- (startswith_strip k Hk); [done|].
    by rewrite Hperm.
Qed.

(** X10. The order of the registry entries does not matter: two
    registries that hold the same entries, each name once, give the same
    three name tables, or raise the same exception. *)
Theorem registry_order_irrelevant E typeinfo typeinfo' :
  NoDup typeinfo.*1 →
  typeinfo ≡ₚ typeinfo' →
  build_tables E typeinfo' = build_tables E typeinfo.
Proof.
  intros Hnd Hperm.
  assert (∀ st, registry_loop typeinfo' st = registry_loop typeinfo st)
    as Hloop.
  { intros st. rewrite !registry_loop_tables.
    by rewrite !(registry_types_perm typeinfo typeinfo'),
      (registry_c_names_perm typeinfo typeinfo'). }
  unfold build_tables, phase_extra_aliases, phase_aliases, phase_registry.
  destruct (phase_abstract E) as [st1|e]; [|done].
  cbn [mbind result_bind]. by rewrite Hloop.
Qed.

(** ** The further properties on concrete registries *)

Lemma script_raises_only_witness :
  script (Sample.E 16) Sample.typeinfo_five
         (Sample.values_of Sample.typeinfo_five) =
    Raise (KeyError "complex64") ∧
  ((∃ n, n ∈ _abstract_type_names ∧ ma (Sample.E 16) n = None ∧
         KeyError "complex64" = AttributeError n) ∨
   (∃ n, n ∈ required_names ∧ (n ∉ Sample.typeinfo_five.*1) ∧
         KeyError "complex64" = KeyError n)).
Proof.
  split; [by_evaluation|].
  apply (script_raises_only (Sample.E 16) Sample.typeinfo_five
           (Sample.values_of Sample.typeinfo_five)).
  by_evaluation.
Defined.

Lemma name_table_keys_witness :
  build_tables (Sample.E 16) Sample.typeinfo =
    Ok (Sample.tables_of (Sample.E 16) Sample.typeinfo) ∧
  is_Some (sctypeDict (Sample.tables_of (Sample.E 16) Sample.typeinfo)
             !! "float128").
Proof.
  split; [by_evaluation|].
  destruct (name_table_keys (Sample.E 16) Sample.typeinfo
              (Sample.tables_of (Sample.E 16) Sample.typeinfo) "float128")
    as [_ Hkeys]; [by_evaluation|].
  apply Hkeys. do 3 right. exists false, Sample.longdouble.
  split; by_evaluation.
Defined.

Lemma tables_agree_witness :
  build_tables (Sample.E 16) Sample.typeinfo =
    Ok (Sample.tables_of (Sample.E 16) Sample.typeinfo) ∧
  sctypeDict (Sample.tables_of (Sample.E 16) Sample.typeinfo) !! "double"
    = Some Sample.float64 ∧
  allTypes (Sample.tables_of (Sample.E 16) Sample.typeinfo) !! "double"
    = Some Sample.float64.
Proof.
  split; [by_evaluation|]. split; [by_evaluation|].
  destruct (tables_agree (Sample.E 16) Sample.typeinfo
              (Sample.tables_of (Sample.E 16) Sample.typeinfo)
              "double" Sample.float64) as [Hsa _]; [by_evaluation..|].
  apply Hsa. by_evaluation.
Defined.

Lemma aliases_resolve_like_targets_witness :
  build_tables (Sample.E 16) Sample.typeinfo =
    Ok (Sample.tables_of (Sample.E 16) Sample.typeinfo) ∧
  ∃ t,
    sctypeDict (Sample.tables_of (Sample.E 16) Sample.typeinfo) !! "ulong"
      = Some t ∧
    sctypeDict (Sample.tables_of (Sample.E 16) Sample.typeinfo) !! "uint"
      = Some t ∧
    allTypes (Sample.tables_of (Sample.E 16) Sample.typeinfo) !! "uint"
      = Some t.
Proof.
  split; [by_evaluation|].
  destruct (aliases_resolve_like_targets (Sample.E 16) Sample.typeinfo
              (Sample.tables_of (Sample.E 16) Sample.typeinfo))
    as [_ Hextra]; [by_evaluation|].
  apply (Hextra "ulong" "uint"). by_evaluation.
Defined.

Lemma abstract_names_resolve_witness :
  build_tables (Sample.E 16) Sample.typeinfo =
    Ok (Sample.tables_of (Sample.E 16) Sample.typeinfo) ∧
  allTypes (Sample.tables_of (Sample.E 16) Sample.typeinfo) !! "number"
    = ma (Sample.E 16) "number" ∧
  is_Some (ma (Sample.E 16) "number").
Proof.
  split; [by_evaluation|].
  apply (abstract_names_resolve (Sample.E 16) Sample.typeinfo);
    by_evaluation.
Defined.

Lemma c_names_dict_exactly_reserved_witness :
  build_tables (Sample.E 16) Sample.typeinfo =
    Ok (Sample.tables_of (Sample.E 16) Sample.typeinfo) ∧
  (c_names_dict (Sample.tables_of (Sample.E 16) Sample.typeinfo) !! "BOOL"
     = Some (TypeInfo "b" Sample.bool_) ↔
   ("NPY_" +:+ "BOOL", TypeInfo "b" Sample.bool_) ∈ Sample.typeinfo).
Proof.
  split; [by_evaluation|].
  apply (c_names_dict_exactly_reserved (Sample.E 16) Sample.typeinfo);
    by_evaluation.
Defined.

Lemma allTypes_registry_names_witness :
  build_tables (Sample.E 16) Sample.typeinfo_c_names =
    Ok (Sample.tables_of (Sample.E 16) Sample.typeinfo_c_names) ∧
  allTypes (Sample.tables_of (Sample.E 16) Sample.typeinfo_c_names)
    !! "float" = Some Sample.float32.
Proof.
  split; [by_evaluation|].
  apply (allTypes_registry_names (Sample.E 16) Sample.typeinfo_c_names
           _ "float" (TypeInfo "f" Sample.float32)); by_evaluation.
Defined.

Lemma sctypes_first_match_witness :
  script (Sample.E 16) Sample.typeinfo (Sample.values_of Sample.typeinfo) =
    Ok (Sample.module_of (Sample.E 16) Sample.typeinfo) ∧
  (is_Some (sctypes (Sample.module_of (Sample.E 16) Sample.typeinfo)
              !! "float") ↔ "float" ∈ group_names).
Proof.
  split; [by_evaluation|].
  destruct (sctypes_first_match (Sample.E 16) Sample.typeinfo
              (Sample.values_of Sample.typeinfo)
              (Sample.module_of (Sample.E 16) Sample.typeinfo))
    as [Hkeys _]; [by_evaluation|].
  apply Hkeys.
Defined.

Lemma set_order_reorders_equal_widths_only_witness :
  script (Sample.E 16) Sample.typeinfo (Sample.values_of Sample.typeinfo) =
    Ok (Sample.module_of (Sample.E 16) Sample.typeinfo) ∧
  ∃ st',
    script (Sample.E 16) Sample.typeinfo
           (reverse (Sample.values_of Sample.typeinfo)) = Ok st' ∧
    names st' = names (Sample.module_of (Sample.E 16) Sample.typeinfo).
Proof.
  split; [by_evaluation|].
  destruct (set_order_reorders_equal_widths_only (Sample.E 16)
              Sample.typeinfo (Sample.values_of Sample.typeinfo)
              (reverse (Sample.values_of Sample.typeinfo))
              (Sample.module_of (Sample.E 16) Sample.typeinfo))
    as (st' & Hst' & Hnames & _).
  - by_evaluation.
  - exact (Permutation_sym (reverse_Permutation _)).
  - exists st'. split; assumption.
Defined.

Lemma registry_order_irrelevant_witness :
  build_tables (Sample.E 16) Sample.typeinfo_reversed =
  build_tables (Sample.E 16) Sample.typeinfo.
Proof.
  apply registry_order_irrelevant; [by_evaluation|].
  exact (Permutation_sym (reverse_Permutation _)).
Defined.
